(** * OrbitControls: a shallow embedding of the orbit camera controller

    The controller of [src/OrbitControls.js] keeps a camera on a sphere
    around a movable target.  Input handlers accumulate pending deltas
    (rotation, pan, zoom scale) and [update] folds them into the camera
    pose under the configured clamps.

    Numbers.  JavaScript numbers are modelled as real numbers: rounding and
    overflow are idealised away.  The configuration bounds whose constructor
    default is [Infinity] or [-Infinity] are extended reals ([ext]).  Where
    the source would divide by zero (a viewport of height 0, two contacts
    at the same point) the JavaScript value is [Infinity] or [NaN], which
    the model does not represent: the statements speak of the runs in
    which every number is finite.

    Library.  The vector, quaternion and spherical-coordinate helpers are
    the ones of the three.js rendering library the controller is written
    against; they are transcribed in the modules [Vector2], [Vector3],
    [Quaternion], [Spherical] and [Matrix4].  [Object3D.lookAt] is kept as a
    method of the camera object.

    Errors.  Reading a property of [undefined] throws; handlers that can do
    so return an [outcome]. *)

From Stdlib Require Import Reals Lra RNsatz List ZArith Bool String.
Import ListNotations.

Local Open Scope R_scope.

(** ** JavaScript numbers *)

(** A number that may be infinite: the type of the configuration bounds
    that default to [Infinity] / [-Infinity]. *)
Inductive ext : Type :=
| NegInfinity
| Fin (r : R)
| Infinity.

(** Order of the extended reals, used to state [min <= max] on bounds. *)
Definition ext_le (a b : ext) : Prop :=
  match a, b with
  | NegInfinity, _ => True
  | _, Infinity => True
  | Fin x, Fin y => x <= y
  | _, _ => False
  end.

(** [x <= b] for a finite number [x] and a bound [b]. *)
Definition le_ext (x : R) (b : ext) : Prop := ext_le (Fin x) b.

(** [Math.max(lo, Math.min(hi, v))] for finite [lo] and [v] and a bound
    [hi] that may be infinite: [Math.min(Infinity, v)] is [v], and
    [Math.min(-Infinity, v)] is [-Infinity], which [Math.max] replaces by
    [lo]. *)
Definition clamp_ext (lo : R) (hi : ext) (v : R) : R :=
  match hi with
  | Infinity => Rmax lo v
  | Fin h => Rmax lo (Rmin h v)
  | NegInfinity => lo
  end.

(** [a > b] and [a != b] on numbers, as booleans. *)
Definition gtb (a b : R) : bool := if Rlt_dec b a then true else false.

Definition neqb (a b : R) : bool := if Req_dec_T a b then false else true.

(** [Math.atan2(y, x)], with values in (-PI, PI]. *)
Definition atan2 (y x : R) : R :=
  if Rlt_dec 0 x then atan (y / x)
  else if Rlt_dec x 0 then
         if Rle_dec 0 y then atan (y / x) + PI else atan (y / x) - PI
  else if Rlt_dec 0 y then PI / 2
  else if Rlt_dec y 0 then - (PI / 2)
  else 0.

(** [Math.pow(b, e)].  For a positive base it is [exp (e * ln b)]; the
    base 0 is covered for the exponents whose power is finite. *)
Definition Math_pow (b e : R) : R :=
  if Req_dec_T e 0 then 1
  else if Req_dec_T b 0 then 0
  else Rpower b e.

Definition TWO_PI : R := 2 * PI.

(** [Number.EPSILON], 2^-52. *)
Definition Number_EPSILON : R := / (2 ^ 52).

(** ** three.js mathematics *)

Module Vector2.

Record t : Type := mk { x : R; y : R }.

Definition zero : t := mk 0 0.

(** [a.subVectors(b, c)] *)
Definition subVectors (b c : t) : t := mk (x b - x c) (y b - y c).

Definition multiplyScalar (v : t) (s : R) : t := mk (x v * s) (y v * s).

End Vector2.

Module Quaternion.

Record t : Type := mk { x : R; y : R; z : R; w : R }.

(** [new Quaternion()] is the identity rotation. *)
Definition identity : t := mk 0 0 0 1.

Definition dot (a b : t) : R :=
  x a * x b + y a * y b + z a * z b + w a * w b.

Definition length (q : t) : R :=
  sqrt (x q * x q + y q * y q + z q * z q + w q * w q).

Definition normalize (q : t) : t :=
  let l := length q in
  if Req_dec_T l 0 then mk 0 0 0 1
  else
    let l := 1 / l in
    mk (x q * l) (y q * l) (z q * l) (w q * l).

(** [invert]: the quaternion is assumed to have unit length, so the
    inverse is the conjugate. *)
Definition invert (q : t) : t := mk (x q * -1) (y q * -1) (z q * -1) (w q).

End Quaternion.

Module Matrix4.

(** [elements] in column-major order. *)
Record t : Type := mk { elements : list R }.

Definition identity : t :=
  mk [1; 0; 0; 0;  0; 1; 0; 0;  0; 0; 1; 0;  0; 0; 0; 1].

End Matrix4.

Module Vector3.

Record t : Type := mk { x : R; y : R; z : R }.

Definition zero : t := mk 0 0 0.

Definition add (a b : t) : t := mk (x a + x b) (y a + y b) (z a + z b).

Definition sub (a b : t) : t := mk (x a - x b) (y a - y b) (z a - z b).

Definition multiplyScalar (v : t) (s : R) : t :=
  mk (x v * s) (y v * s) (z v * s).

Definition divideScalar (v : t) (s : R) : t := multiplyScalar v (1 / s).

Definition dot (a b : t) : R := x a * x b + y a * y b + z a * z b.

Definition lengthSq (v : t) : R := x v * x v + y v * y v + z v * z v.

Definition length (v : t) : R := sqrt (x v * x v + y v * y v + z v * z v).

Definition distanceToSquared (a b : t) : R :=
  let dx := x a - x b in
  let dy := y a - y b in
  let dz := z a - z b in
  dx * dx + dy * dy + dz * dz.

Definition distanceTo (a b : t) : R := sqrt (distanceToSquared a b).

(** [clampLength(min, max)]; [length || 1] guards the zero vector. *)
Definition clampLength (v : t) (min : R) (max : ext) : t :=
  let length := length v in
  multiplyScalar
    (divideScalar v (if Req_dec_T length 0 then 1 else length))
    (clamp_ext min max length).

Definition applyQuaternion (v : t) (q : Quaternion.t) : t :=
  let vx := x v in
  let vy := y v in
  let vz := z v in
  let qx := Quaternion.x q in
  let qy := Quaternion.y q in
  let qz := Quaternion.z q in
  let qw := Quaternion.w q in
  (* t = 2 * cross( q.xyz, v ) *)
  let tx := 2 * (qy * vz - qz * vy) in
  let ty := 2 * (qz * vx - qx * vz) in
  let tz := 2 * (qx * vy - qy * vx) in
  (* v + q.w * t + cross( q.xyz, t ) *)
  mk (vx + qw * tx + qy * tz - qz * ty)
     (vy + qw * ty + qz * tx - qx * tz)
     (vz + qw * tz + qx * ty - qy * tx).

Definition setFromSphericalCoords (radius phi theta : R) : t :=
  let sinPhiRadius := sin phi * radius in
  mk (sinPhiRadius * sin theta) (cos phi * radius) (sinPhiRadius * cos theta).

(** [setFromMatrixColumn(m, index)] reads three consecutive elements
    from offset [index * 4]. *)
Definition setFromMatrixColumn (m : Matrix4.t) (index : nat) : t :=
  let e := Matrix4.elements m in
  mk (nth (index * 4) e 0) (nth (index * 4 + 1) e 0) (nth (index * 4 + 2) e 0).

End Vector3.

Module Spherical.

Record t : Type := mk { radius : R; phi : R; theta : R }.

(** [new Spherical()] *)
Definition initial : t := mk 1 0 0.

Definition EPS : R := 0.000001.

(** [MathUtils.clamp(value, min, max)] *)
Definition clamp (value min max : R) : R := Rmax min (Rmin max value).

Definition setFromCartesianCoords (x y z : R) : t :=
  let radius := sqrt (x * x + y * y + z * z) in
  if Req_dec_T radius 0 then mk radius 0 0
  else mk radius (acos (clamp (y / radius) (-1) 1)) (atan2 x z).

Definition setFromVector3 (v : Vector3.t) : t :=
  setFromCartesianCoords (Vector3.x v) (Vector3.y v) (Vector3.z v).

(** [makeSafe]: restrict phi to be between EPS and PI - EPS. *)
Definition makeSafe (s : t) : t :=
  mk (radius s) (Rmax EPS (Rmin (PI - EPS) (phi s))) (theta s).

End Spherical.

(** [Quaternion.setFromUnitVectors(vFrom, vTo)] *)
Definition setFromUnitVectors (vFrom vTo : Vector3.t) : Quaternion.t :=
  let r := Vector3.dot vFrom vTo + 1 in
  Quaternion.normalize
  (if Rlt_dec r Number_EPSILON then
     (* vFrom and vTo point in opposite directions *)
     let r := 0 in
     if Rlt_dec (Rabs (Vector3.z vFrom)) (Rabs (Vector3.x vFrom)) then
       Quaternion.mk (- Vector3.y vFrom) (Vector3.x vFrom) 0 r
     else
       Quaternion.mk 0 (- Vector3.z vFrom) (Vector3.y vFrom) r
   else
     Quaternion.mk
       (Vector3.y vFrom * Vector3.z vTo - Vector3.z vFrom * Vector3.y vTo)
       (Vector3.z vFrom * Vector3.x vTo - Vector3.x vFrom * Vector3.z vTo)
       (Vector3.x vFrom * Vector3.y vTo - Vector3.y vFrom * Vector3.x vTo)
       r).

(** [Vector3.setFromSpherical(s)] *)
Definition setFromSpherical (s : Spherical.t) : Vector3.t :=
  Vector3.setFromSphericalCoords
    (Spherical.radius s) (Spherical.phi s) (Spherical.theta s).

(** ** Events and notifications *)

Module STATE.

Inductive t : Type :=
| NONE
| ROTATE
| DOLLY
| PAN
| TOUCH_ROTATE
| TOUCH_PAN
| TOUCH_DOLLY_PAN
| TOUCH_DOLLY_ROTATE.

Definition is_NONE (s : t) : bool :=
  match s with NONE => true | _ => false end.

End STATE.

(** [THREE.MOUSE] and [THREE.TOUCH] action codes. *)
Module MOUSE.
Definition ROTATE : Z := 0%Z.
Definition DOLLY : Z := 1%Z.
Definition PAN : Z := 2%Z.
End MOUSE.

Module TOUCH.
Definition ROTATE : Z := 0%Z.
Definition PAN : Z := 1%Z.
Definition DOLLY_PAN : Z := 2%Z.
Definition DOLLY_ROTATE : Z := 3%Z.
End TOUCH.

Module MOUSE_BUTTONS.
Definition LEFT : Z := MOUSE.ROTATE.
Definition MIDDLE : Z := MOUSE.DOLLY.
Definition RIGHT : Z := MOUSE.PAN.
End MOUSE_BUTTONS.

Module TOUCHES.
Definition ONE : Z := TOUCH.ROTATE.
Definition TWO : Z := TOUCH.DOLLY_PAN.
End TOUCHES.

Module KEYS.
Definition LEFT : string := "ArrowLeft".
Definition UP : string := "ArrowUp".
Definition RIGHT : string := "ArrowRight".
Definition BOTTOM : string := "ArrowDown".
End KEYS.

Definition EPS : R := 0.000001.

Definition MIN_TARGET_HEIGHT : R := 0.1.

(** The three notifications of the event dispatcher. *)
Inductive Notification : Type :=
| _changeEvent
| _startEvent
| _endEvent.

(** Calls made on the DOM element and on the DOM event being handled. *)
Inductive DomCall : Type :=
| preventDefault
| setPointerCapture (pointerId : Z)
| releasePointerCapture (pointerId : Z).

Record PointerEvent : Type := mkPointerEvent {
  pointerId : Z;
  pointerType : string;
  clientX : R;
  clientY : R;
  pageX : R;
  pageY : R;
  button : Z;
  shiftKey : bool;
  ctrlKey : bool
}.

Record WheelEvent : Type := mkWheelEvent {
  wheel_clientX : R;
  wheel_clientY : R;
  deltaY : R;
  deltaMode : Z;
  wheel_ctrlKey : bool
}.

Record KeyboardEvent : Type := mkKeyboardEvent {
  code : string;
  key_shiftKey : bool
}.

(** ** The controller object *)

(** The camera is owned by the rendering engine.  The controller reads
    [position], [up], [fov] and [matrix], writes [position], and calls
    [lookAt], the engine's method that recomputes [quaternion] from the
    eye position, the point looked at and the up vector.  [matrix] is
    recomposed by the engine when it renders, not by the controller. *)
Record Camera : Type := mkCamera {
  position : Vector3.t;
  up : Vector3.t;
  quaternion : Quaternion.t;
  fov : R;
  matrix : Matrix4.t;
  lookAt_method : Vector3.t -> Vector3.t -> Vector3.t -> Quaternion.t
}.

Definition set_position (p : Vector3.t) (cam : Camera) : Camera :=
  mkCamera p (up cam) (quaternion cam) (fov cam) (matrix cam) (lookAt_method cam).

(** [camera.lookAt(target)] *)
Definition lookAt (cam : Camera) (target : Vector3.t) : Camera :=
  mkCamera (position cam) (up cam)
    (lookAt_method cam (position cam) target (up cam))
    (fov cam) (matrix cam) (lookAt_method cam).

Record Element : Type := mkElement { clientHeight : R }.

(** The properties of [this].  [enableDamping] is not set by the
    constructor; the pages that create a controller assign it. *)
Record OrbitControls : Type := mkOrbitControls {
  camera : Camera;
  domElement : Element;
  target : Vector3.t;
  cursor : Vector3.t;
  minDistance : R;
  maxDistance : ext;
  minTargetRadius : R;
  maxTargetRadius : ext;
  minPolarAngle : R;
  maxPolarAngle : R;
  minAzimuthAngle : ext;
  maxAzimuthAngle : ext;
  zoomSpeed : R;
  rotateSpeed : R;
  panSpeed : R;
  keyPanSpeed : R;
  enableDamping : bool
}.

Definition set_camera_target (cam : Camera) (tg : Vector3.t) (o : OrbitControls)
  : OrbitControls :=
  mkOrbitControls cam (domElement o) tg (cursor o)
    (minDistance o) (maxDistance o) (minTargetRadius o) (maxTargetRadius o)
    (minPolarAngle o) (maxPolarAngle o) (minAzimuthAngle o) (maxAzimuthAngle o)
    (zoomSpeed o) (rotateSpeed o) (panSpeed o) (keyPanSpeed o) (enableDamping o).

Definition set_enableDamping (b : bool) (o : OrbitControls) : OrbitControls :=
  mkOrbitControls (camera o) (domElement o) (target o) (cursor o)
    (minDistance o) (maxDistance o) (minTargetRadius o) (maxTargetRadius o)
    (minPolarAngle o) (maxPolarAngle o) (minAzimuthAngle o) (maxAzimuthAngle o)
    (zoomSpeed o) (rotateSpeed o) (panSpeed o) (keyPanSpeed o) b.

(** The variables the constructor's closures capture. *)
Record Closure : Type := mkClosure {
  state : STATE.t;
  spherical : Spherical.t;
  sphericalDelta : Spherical.t;
  scale : R;
  panOffset : Vector3.t;
  rotateStart : Vector2.t;
  rotateEnd : Vector2.t;
  rotateDelta : Vector2.t;
  panStart : Vector2.t;
  panEnd : Vector2.t;
  panDelta : Vector2.t;
  dollyStart : Vector2.t;
  dollyEnd : Vector2.t;
  dollyDelta : Vector2.t;
  pointers : list Z;
  pointerPositions : list (Z * Vector2.t);
  controlActive : bool
}.


Definition set_state (a : STATE.t) (v : Closure) : Closure :=
  mkClosure a (spherical v) (sphericalDelta v) (scale v) (panOffset v)
    (rotateStart v) (rotateEnd v) (rotateDelta v) (panStart v) (panEnd v)
    (panDelta v) (dollyStart v) (dollyEnd v) (dollyDelta v) (pointers v)
    (pointerPositions v) (controlActive v).

Definition set_spherical (a : Spherical.t) (v : Closure) : Closure :=
  mkClosure (state v) a (sphericalDelta v) (scale v) (panOffset v)
    (rotateStart v) (rotateEnd v) (rotateDelta v) (panStart v) (panEnd v)
    (panDelta v) (dollyStart v) (dollyEnd v) (dollyDelta v) (pointers v)
    (pointerPositions v) (controlActive v).

Definition set_sphericalDelta (a : Spherical.t) (v : Closure) : Closure :=
  mkClosure (state v) (spherical v) a (scale v) (panOffset v)
    (rotateStart v) (rotateEnd v) (rotateDelta v) (panStart v) (panEnd v)
    (panDelta v) (dollyStart v) (dollyEnd v) (dollyDelta v) (pointers v)
    (pointerPositions v) (controlActive v).

Definition set_scale (a : R) (v : Closure) : Closure :=
  mkClosure (state v) (spherical v) (sphericalDelta v) a (panOffset v)
    (rotateStart v) (rotateEnd v) (rotateDelta v) (panStart v) (panEnd v)
    (panDelta v) (dollyStart v) (dollyEnd v) (dollyDelta v) (pointers v)
    (pointerPositions v) (controlActive v).

Definition set_panOffset (a : Vector3.t) (v : Closure) : Closure :=
  mkClosure (state v) (spherical v) (sphericalDelta v) (scale v) a
    (rotateStart v) (rotateEnd v) (rotateDelta v) (panStart v) (panEnd v)
    (panDelta v) (dollyStart v) (dollyEnd v) (dollyDelta v) (pointers v)
    (pointerPositions v) (controlActive v).

Definition set_rotateStart (a : Vector2.t) (v : Closure) : Closure :=
  mkClosure (state v) (spherical v) (sphericalDelta v) (scale v)
    (panOffset v) a (rotateEnd v) (rotateDelta v) (panStart v) (panEnd v)
    (panDelta v) (dollyStart v) (dollyEnd v) (dollyDelta v) (pointers v)
    (pointerPositions v) (controlActive v).

Definition set_rotateEnd (a : Vector2.t) (v : Closure) : Closure :=
  mkClosure (state v) (spherical v) (sphericalDelta v) (scale v)
    (panOffset v) (rotateStart v) a (rotateDelta v) (panStart v) (panEnd v)
    (panDelta v) (dollyStart v) (dollyEnd v) (dollyDelta v) (pointers v)
    (pointerPositions v) (controlActive v).

Definition set_rotateDelta (a : Vector2.t) (v : Closure) : Closure :=
  mkClosure (state v) (spherical v) (sphericalDelta v) (scale v)
    (panOffset v) (rotateStart v) (rotateEnd v) a (panStart v) (panEnd v)
    (panDelta v) (dollyStart v) (dollyEnd v) (dollyDelta v) (pointers v)
    (pointerPositions v) (controlActive v).

Definition set_panStart (a : Vector2.t) (v : Closure) : Closure :=
  mkClosure (state v) (spherical v) (sphericalDelta v) (scale v)
    (panOffset v) (rotateStart v) (rotateEnd v) (rotateDelta v) a (panEnd v)
    (panDelta v) (dollyStart v) (dollyEnd v) (dollyDelta v) (pointers v)
    (pointerPositions v) (controlActive v).

Definition set_panEnd (a : Vector2.t) (v : Closure) : Closure :=
  mkClosure (state v) (spherical v) (sphericalDelta v) (scale v)
    (panOffset v) (rotateStart v) (rotateEnd v) (rotateDelta v) (panStart v)
    a (panDelta v) (dollyStart v) (dollyEnd v) (dollyDelta v) (pointers v)
    (pointerPositions v) (controlActive v).

Definition set_panDelta (a : Vector2.t) (v : Closure) : Closure :=
  mkClosure (state v) (spherical v) (sphericalDelta v) (scale v)
    (panOffset v) (rotateStart v) (rotateEnd v) (rotateDelta v) (panStart v)
    (panEnd v) a (dollyStart v) (dollyEnd v) (dollyDelta v) (pointers v)
    (pointerPositions v) (controlActive v).

Definition set_dollyStart (a : Vector2.t) (v : Closure) : Closure :=
  mkClosure (state v) (spherical v) (sphericalDelta v) (scale v)
    (panOffset v) (rotateStart v) (rotateEnd v) (rotateDelta v) (panStart v)
    (panEnd v) (panDelta v) a (dollyEnd v) (dollyDelta v) (pointers v)
    (pointerPositions v) (controlActive v).

Definition set_dollyEnd (a : Vector2.t) (v : Closure) : Closure :=
  mkClosure (state v) (spherical v) (sphericalDelta v) (scale v)
    (panOffset v) (rotateStart v) (rotateEnd v) (rotateDelta v) (panStart v)
    (panEnd v) (panDelta v) (dollyStart v) a (dollyDelta v) (pointers v)
    (pointerPositions v) (controlActive v).

Definition set_dollyDelta (a : Vector2.t) (v : Closure) : Closure :=
  mkClosure (state v) (spherical v) (sphericalDelta v) (scale v)
    (panOffset v) (rotateStart v) (rotateEnd v) (rotateDelta v) (panStart v)
    (panEnd v) (panDelta v) (dollyStart v) (dollyEnd v) a (pointers v)
    (pointerPositions v) (controlActive v).

Definition set_pointers (a : list Z) (v : Closure) : Closure :=
  mkClosure (state v) (spherical v) (sphericalDelta v) (scale v)
    (panOffset v) (rotateStart v) (rotateEnd v) (rotateDelta v) (panStart v)
    (panEnd v) (panDelta v) (dollyStart v) (dollyEnd v) (dollyDelta v) a
    (pointerPositions v) (controlActive v).

Definition set_pointerPositions (a : list (Z * Vector2.t)) (v : Closure) : Closure :=
  mkClosure (state v) (spherical v) (sphericalDelta v) (scale v)
    (panOffset v) (rotateStart v) (rotateEnd v) (rotateDelta v) (panStart v)
    (panEnd v) (panDelta v) (dollyStart v) (dollyEnd v) (dollyDelta v)
    (pointers v) a (controlActive v).

(** The whole controller: the object, the captured variables, the
    notifications dispatched so far (newest first), the DOM calls made so
    far (newest first), and whether the pointermove / pointerup listeners
    are registered. *)
Record Controller : Type := mkController {
  this : OrbitControls;
  vars : Closure;
  events : list Notification;
  dom : list DomCall;
  listening : bool
}.

Definition with_this (f : OrbitControls -> OrbitControls) (c : Controller)
  : Controller :=
  mkController (f (this c)) (vars c) (events c) (dom c) (listening c).

Definition with_vars (f : Closure -> Closure) (c : Controller) : Controller :=
  mkController (this c) (f (vars c)) (events c) (dom c) (listening c).

(** [this.dispatchEvent(n)] *)
Definition dispatchEvent (n : Notification) (c : Controller) : Controller :=
  mkController (this c) (vars c) (n :: events c) (dom c) (listening c).

Definition domCall (d : DomCall) (c : Controller) : Controller :=
  mkController (this c) (vars c) (events c) (d :: dom c) (listening c).

Definition set_listening (b : bool) (c : Controller) : Controller :=
  mkController (this c) (vars c) (events c) (dom c) b.

(** ** [update] *)

Definition getPolarAngle (c : Controller) : R := Spherical.phi (spherical (vars c)).

Definition getAzimuthalAngle (c : Controller) : R :=
  Spherical.theta (spherical (vars c)).

Definition getDistance (c : Controller) : R :=
  Vector3.distanceTo (position (camera (this c))) (target (this c)).

Definition clampDistance (o : OrbitControls) (dist : R) : R :=
  clamp_ext (minDistance o) (maxDistance o) dist.

(** "restrict theta to be between desired limits"; the bounds take part
    only when both are finite ([isFinite(min) && isFinite(max)]). *)
Definition restrictTheta (o : OrbitControls) (theta : R) : R :=
  let min := minAzimuthAngle o in
  let max := maxAzimuthAngle o in
  match min, max with
  | Fin min, Fin max =>
      let min :=
        if Rlt_dec min (- PI) then min + TWO_PI
        else if Rlt_dec PI min then min - TWO_PI else min in
      let max :=
        if Rlt_dec max (- PI) then max + TWO_PI
        else if Rlt_dec PI max then max - TWO_PI else max in
      if Rle_dec min max then Rmax min (Rmin max theta)
      else
        if Rlt_dec ((min + max) / 2) theta then Rmax min theta
        else Rmin max theta
  | _, _ => theta
  end.

(** "move target to panned location", limit its distance from the cursor,
    and "prevent camera from going below ground". *)
Definition moveTarget (o : OrbitControls) (panOffset : Vector3.t) : Vector3.t :=
  let target := Vector3.add (target o) panOffset in
  let target := Vector3.sub target (cursor o) in
  let target :=
    Vector3.clampLength target (minTargetRadius o) (maxTargetRadius o) in
  let target := Vector3.add target (cursor o) in
  Vector3.mk (Vector3.x target)
    (Rmax (Vector3.y target) MIN_TARGET_HEIGHT)
    (Vector3.z target).

Definition update (c : Controller) : Controller :=
  let o := this c in
  let v := vars c in
  (* so camera.up is the orbit axis *)
  let quat := setFromUnitVectors (up (camera o)) (Vector3.mk 0 1 0) in
  let quatInverse := Quaternion.invert quat in
  (* created at each call: new Vector3(), new Quaternion(), new Vector3() *)
  let lastPosition := Vector3.zero in
  let lastQuaternion := Quaternion.identity in
  let lastTargetPosition := Vector3.zero in
  let offset := Vector3.sub (position (camera o)) (target o) in
  (* rotate offset to "y-axis-is-up" space *)
  let offset := Vector3.applyQuaternion offset quat in
  (* angle from z-axis around y-axis *)
  let s := Spherical.setFromVector3 offset in
  let theta := Spherical.theta s + Spherical.theta (sphericalDelta v) in
  let phi := Spherical.phi s + Spherical.phi (sphericalDelta v) in
  let theta := restrictTheta o theta in
  (* restrict phi to be between desired limits *)
  let phi := Rmax (minPolarAngle o) (Rmin (maxPolarAngle o) phi) in
  let s := Spherical.makeSafe (Spherical.mk (Spherical.radius s) phi theta) in
  let target := moveTarget o (panOffset v) in
  let prevRadius := Spherical.radius s in
  let s :=
    Spherical.mk (clampDistance o (Spherical.radius s * scale v))
      (Spherical.phi s) (Spherical.theta s) in
  let offset := setFromSpherical s in
  (* rotate offset back to "camera-up-vector-is-up" space *)
  let offset := Vector3.applyQuaternion offset quatInverse in
  let cam := set_position (Vector3.add target offset) (camera o) in
  let cam := lookAt cam target in
  let v := set_spherical s v in
  let v := set_sphericalDelta (Spherical.mk 0 0 0) v in
  let v := set_panOffset (Vector3.mk 0 0 0) v in
  let v := set_scale 1 v in
  let c :=
    mkController (set_camera_target cam target o) v
      (events c) (dom c) (listening c) in
  (* update condition is:
     min(camera displacement, camera rotation in radians)^2 > EPS *)
  if neqb prevRadius (Spherical.radius s)
     || gtb (Vector3.distanceToSquared lastPosition (position cam)) EPS
     || gtb (8 * (1 - Quaternion.dot lastQuaternion (quaternion cam))) EPS
     || gtb (Vector3.distanceToSquared lastTargetPosition target) EPS
  then
    (* the copies into lastPosition, lastQuaternion and lastTargetPosition
       end with the call *)
    dispatchEvent _changeEvent c
  else c.

(** ** Pending deltas *)

Definition getZoomScale (o : OrbitControls) (delta : R) : R :=
  Math_pow 0.95 (zoomSpeed o * Rabs (delta * 0.01)).

Definition rotateLeft (angle : R) (c : Controller) : Controller :=
  let d := sphericalDelta (vars c) in
  with_vars
    (set_sphericalDelta
       (Spherical.mk (Spherical.radius d) (Spherical.phi d)
          (Spherical.theta d - angle))) c.

Definition rotateUp (angle : R) (c : Controller) : Controller :=
  let d := sphericalDelta (vars c) in
  with_vars
    (set_sphericalDelta
       (Spherical.mk (Spherical.radius d) (Spherical.phi d - angle)
          (Spherical.theta d))) c.

Definition panLeft (distance : R) (cameraMatrix : Matrix4.t) (c : Controller)
  : Controller :=
  let v := Vector3.setFromMatrixColumn cameraMatrix 0 in
  let v := Vector3.multiplyScalar v (- distance) in
  with_vars (set_panOffset (Vector3.add (panOffset (vars c)) v)) c.

Definition panUp (distance : R) (cameraMatrix : Matrix4.t) (c : Controller)
  : Controller :=
  let v := Vector3.setFromMatrixColumn cameraMatrix 1 in
  let v := Vector3.multiplyScalar v distance in
  with_vars (set_panOffset (Vector3.add (panOffset (vars c)) v)) c.

Definition pan (deltaX deltaY : R) (c : Controller) : Controller :=
  let o := this c in
  let offset := Vector3.sub (position (camera o)) (target o) in
  let targetDistance := Vector3.length offset in
  (* half of the fov is center to top of screen *)
  let targetDistance :=
    targetDistance * tan ((fov (camera o) / 2) * PI / 180.0) in
  (* we use only clientHeight here so aspect ratio does not distort speed *)
  let c :=
    panLeft (2 * deltaX * targetDistance / clientHeight (domElement o))
      (matrix (camera o)) c in
  panUp (2 * deltaY * targetDistance / clientHeight (domElement o))
    (matrix (camera o)) c.

Definition dollyOut (dollyScale : R) (c : Controller) : Controller :=
  with_vars (set_scale (scale (vars c) / dollyScale)) c.

Definition dollyIn (dollyScale : R) (c : Controller) : Controller :=
  with_vars (set_scale (scale (vars c) * dollyScale)) c.

(** ** Event callbacks: mouse, wheel and keyboard *)

Definition handleMouseDownRotate (event : PointerEvent) (c : Controller)
  : Controller :=
  with_vars (set_rotateStart (Vector2.mk (clientX event) (clientY event))) c.

Definition handleMouseDownDolly (event : PointerEvent) (c : Controller)
  : Controller :=
  with_vars (set_dollyStart (Vector2.mk (clientX event) (clientY event))) c.

Definition handleMouseDownPan (event : PointerEvent) (c : Controller)
  : Controller :=
  with_vars (set_panStart (Vector2.mk (clientX event) (clientY event))) c.

(** The body of [handleMouseMoveRotate] up to, and without, its closing
    call of [update]: what the move adds to the pending rotation. *)
Definition accumulateMouseMoveRotate (event : PointerEvent) (c : Controller)
  : Controller :=
  let c :=
    with_vars (set_rotateEnd (Vector2.mk (clientX event) (clientY event))) c in
  let c :=
    with_vars
      (set_rotateDelta
         (Vector2.multiplyScalar
            (Vector2.subVectors (rotateEnd (vars c)) (rotateStart (vars c)))
            (rotateSpeed (this c)))) c in
  let c :=
    rotateLeft
      (TWO_PI * Vector2.x (rotateDelta (vars c))
       / clientHeight (domElement (this c))) (* yes, height *) c in
  let c :=
    rotateUp
      (TWO_PI * Vector2.y (rotateDelta (vars c))
       / clientHeight (domElement (this c))) c in
  with_vars (set_rotateStart (rotateEnd (vars c))) c.

Definition handleMouseMoveRotate (event : PointerEvent) (c : Controller)
  : Controller :=
  update (accumulateMouseMoveRotate event c).

Definition accumulateMouseMoveDolly (event : PointerEvent) (c : Controller)
  : Controller :=
  let c :=
    with_vars (set_dollyEnd (Vector2.mk (clientX event) (clientY event))) c in
  let c :=
    with_vars
      (set_dollyDelta
         (Vector2.subVectors (dollyEnd (vars c)) (dollyStart (vars c)))) c in
  let c :=
    if Rlt_dec 0 (Vector2.y (dollyDelta (vars c))) then
      dollyOut (getZoomScale (this c) (Vector2.y (dollyDelta (vars c)))) c
    else if Rlt_dec (Vector2.y (dollyDelta (vars c))) 0 then
      dollyIn (getZoomScale (this c) (Vector2.y (dollyDelta (vars c)))) c
    else c in
  with_vars (set_dollyStart (dollyEnd (vars c))) c.

Definition handleMouseMoveDolly (event : PointerEvent) (c : Controller)
  : Controller :=
  update (accumulateMouseMoveDolly event c).

Definition accumulateMouseMovePan (event : PointerEvent) (c : Controller)
  : Controller :=
  let c :=
    with_vars (set_panEnd (Vector2.mk (clientX event) (clientY event))) c in
  let c :=
    with_vars
      (set_panDelta
         (Vector2.multiplyScalar
            (Vector2.subVectors (panEnd (vars c)) (panStart (vars c)))
            (panSpeed (this c)))) c in
  let c :=
    pan (Vector2.x (panDelta (vars c))) (Vector2.y (panDelta (vars c))) c in
  with_vars (set_panStart (panEnd (vars c))) c.

Definition handleMouseMovePan (event : PointerEvent) (c : Controller)
  : Controller :=
  update (accumulateMouseMovePan event c).

(** The body of [handleMouseWheel] without its closing [update]; it reads
    only [deltaY] of the event it is given. *)
Definition accumulateMouseWheel (deltaY : R) (c : Controller) : Controller :=
  if Rlt_dec deltaY 0 then dollyIn (getZoomScale (this c) deltaY) c
  else if Rlt_dec 0 deltaY then dollyOut (getZoomScale (this c) deltaY) c
  else c.

Definition handleMouseWheel (deltaY : R) (c : Controller) : Controller :=
  update (accumulateMouseWheel deltaY c).

(** The switch of [handleKeyDown]: the pending delta of the key, or [None]
    when the key maps to no action ([needsUpdate] stays false). *)
Definition accumulateKeyDown (event : KeyboardEvent) (c : Controller)
  : option Controller :=
  let o := this c in
  let h := clientHeight (domElement o) in
  if String.eqb (code event) KEYS.UP then
    Some (if key_shiftKey event then rotateUp (TWO_PI * rotateSpeed o / h) c
          else pan 0 (keyPanSpeed o) c)
  else if String.eqb (code event) KEYS.BOTTOM then
    Some (if key_shiftKey event then rotateUp ((- TWO_PI) * rotateSpeed o / h) c
          else pan 0 (- keyPanSpeed o) c)
  else if String.eqb (code event) KEYS.LEFT then
    Some (if key_shiftKey event then rotateLeft (TWO_PI * rotateSpeed o / h) c
          else pan (keyPanSpeed o) 0 c)
  else if String.eqb (code event) KEYS.RIGHT then
    Some (if key_shiftKey event then rotateLeft ((- TWO_PI) * rotateSpeed o / h) c
          else pan (- keyPanSpeed o) 0 c)
  else None.

Definition handleKeyDown (event : KeyboardEvent) (c : Controller) : Controller :=
  match accumulateKeyDown event c with
  | Some c =>
      (* prevent the browser from scrolling on cursor keys *)
      update (domCall preventDefault c)
  | None => c
  end.

(** ** The pointer registry *)

(** [pointerPositions[id]]; [None] is [undefined]. *)
Fixpoint lookupPosition (id : Z) (m : list (Z * Vector2.t)) : option Vector2.t :=
  match m with
  | [] => None
  | (k, p) :: m => if Z.eqb k id then Some p else lookupPosition id m
  end.

(** [pointerPositions[id] = p], or [position.set] on the stored vector. *)
Fixpoint storePosition (id : Z) (p : Vector2.t) (m : list (Z * Vector2.t))
  : list (Z * Vector2.t) :=
  match m with
  | [] => [(id, p)]
  | (k, q) :: m =>
      if Z.eqb k id then (k, p) :: m else (k, q) :: storePosition id p m
  end.

(** [delete pointerPositions[id]] *)
Fixpoint deletePosition (id : Z) (m : list (Z * Vector2.t))
  : list (Z * Vector2.t) :=
  match m with
  | [] => []
  | (k, q) :: m =>
      if Z.eqb k id then deletePosition id m else (k, q) :: deletePosition id m
  end.

(** The loop of [removePointer]: splice out the first entry equal to [id]. *)
Fixpoint spliceFirst (id : Z) (l : list Z) : list Z :=
  match l with
  | [] => []
  | p :: l => if Z.eqb p id then l else p :: spliceFirst id l
  end.

Definition addPointer (event : PointerEvent) (c : Controller) : Controller :=
  with_vars (set_pointers (pointers (vars c) ++ [pointerId event])) c.

Definition removePointer (event : PointerEvent) (c : Controller) : Controller :=
  let c :=
    with_vars
      (set_pointerPositions
         (deletePosition (pointerId event) (pointerPositions (vars c)))) c in
  with_vars (set_pointers (spliceFirst (pointerId event) (pointers (vars c)))) c.

Definition isTrackingPointer (event : PointerEvent) (c : Controller) : bool :=
  existsb (Z.eqb (pointerId event)) (pointers (vars c)).

Definition trackPointer (event : PointerEvent) (c : Controller) : Controller :=
  with_vars
    (set_pointerPositions
       (storePosition (pointerId event) (Vector2.mk (pageX event) (pageY event))
          (pointerPositions (vars c)))) c.

(** [getSecondPointerPosition(event)]: [None] is [undefined], the value
    when the other registry slot is empty or its pointer has no recorded
    position. *)
Definition getSecondPointerPosition (event : PointerEvent) (c : Controller)
  : option Vector2.t :=
  let ps := pointers (vars c) in
  let pointerId :=
    match nth_error ps 0 with
    | Some p0 => if Z.eqb (pointerId event) p0 then nth_error ps 1 else Some p0
    | None => None
    end in
  match pointerId with
  | Some id => lookupPosition id (pointerPositions (vars c))
  | None => None
  end.

(** ** Handlers that can throw

    Reading [x] of an [undefined] position raises a TypeError, which
    abandons the handler; the mutations made before it remain. *)
Inductive outcome : Type :=
| Returned (c : Controller)
| Thrown (c : Controller).

Definition state_of (r : outcome) : Controller :=
  match r with Returned c => c | Thrown c => c end.

Definition andThen (r : outcome) (k : Controller -> outcome) : outcome :=
  match r with
  | Returned c => k c
  | Thrown c => Thrown c
  end.

Notation "r >>= k" := (andThen r k) (at level 50, left associativity).

Definition lift (f : Controller -> Controller) (c : Controller) : outcome :=
  Returned (f c).

(** ** Event callbacks: touch *)

(** The anchor of a touch gesture: the contact itself when it is the only
    pointer, else the midpoint of the contact and the second pointer. *)
Definition touchAnchor (event : PointerEvent) (c : Controller)
  : option Vector2.t :=
  if Nat.eqb (List.length (pointers (vars c))) 1 then
    Some (Vector2.mk (pageX event) (pageY event))
  else
    match getSecondPointerPosition event c with
    | Some position =>
        let x := 0.5 * (pageX event + Vector2.x position) in
        let y := 0.5 * (pageY event + Vector2.y position) in
        Some (Vector2.mk x y)
    | None => None
    end.

Definition handleTouchStartRotate (event : PointerEvent) (c : Controller)
  : outcome :=
  match touchAnchor event c with
  | Some a => Returned (with_vars (set_rotateStart a) c)
  | None => Thrown c
  end.

Definition handleTouchStartPan (event : PointerEvent) (c : Controller)
  : outcome :=
  match touchAnchor event c with
  | Some a => Returned (with_vars (set_panStart a) c)
  | None => Thrown c
  end.

(** The separation of the contact and the second pointer. *)
Definition touchDistance (event : PointerEvent) (c : Controller) : option R :=
  match getSecondPointerPosition event c with
  | Some position =>
      let dx := pageX event - Vector2.x position in
      let dy := pageY event - Vector2.y position in
      Some (sqrt (dx * dx + dy * dy))
  | None => None
  end.

Definition handleTouchStartDolly (event : PointerEvent) (c : Controller)
  : outcome :=
  match touchDistance event c with
  | Some distance => Returned (with_vars (set_dollyStart (Vector2.mk 0 distance)) c)
  | None => Thrown c
  end.

Definition handleTouchStartDollyPan (event : PointerEvent) (c : Controller)
  : outcome :=
  handleTouchStartDolly event c >>= handleTouchStartPan event.

Definition handleTouchStartDollyRotate (event : PointerEvent) (c : Controller)
  : outcome :=
  handleTouchStartDolly event c >>= handleTouchStartRotate event.

Definition handleTouchMoveRotate (event : PointerEvent) (c : Controller)
  : outcome :=
  match touchAnchor event c with
  | Some a =>
      let c := with_vars (set_rotateEnd a) c in
      let c :=
        with_vars
          (set_rotateDelta
             (Vector2.multiplyScalar
                (Vector2.subVectors (rotateEnd (vars c)) (rotateStart (vars c)))
                (rotateSpeed (this c)))) c in
      let element := domElement (this c) in
      let c :=
        rotateLeft
          (TWO_PI * Vector2.x (rotateDelta (vars c)) / clientHeight element)
          (* yes, height *) c in
      let c :=
        rotateUp
          (TWO_PI * Vector2.y (rotateDelta (vars c)) / clientHeight element) c in
      Returned (with_vars (set_rotateStart (rotateEnd (vars c))) c)
  | None => Thrown c
  end.

Definition handleTouchMovePan (event : PointerEvent) (c : Controller)
  : outcome :=
  match touchAnchor event c with
  | Some a =>
      let c := with_vars (set_panEnd a) c in
      let c :=
        with_vars
          (set_panDelta
             (Vector2.multiplyScalar
                (Vector2.subVectors (panEnd (vars c)) (panStart (vars c)))
                (panSpeed (this c)))) c in
      let c :=
        pan (Vector2.x (panDelta (vars c))) (Vector2.y (panDelta (vars c))) c in
      Returned (with_vars (set_panStart (panEnd (vars c))) c)
  | None => Thrown c
  end.

Definition handleTouchMoveDolly (event : PointerEvent) (c : Controller)
  : outcome :=
  match touchDistance event c with
  | Some distance =>
      let c := with_vars (set_dollyEnd (Vector2.mk 0 distance)) c in
      let c :=
        with_vars
          (set_dollyDelta
             (Vector2.mk 0
                (Math_pow
                   (Vector2.y (dollyEnd (vars c)) / Vector2.y (dollyStart (vars c)))
                   (zoomSpeed (this c))))) c in
      let c := dollyOut (Vector2.y (dollyDelta (vars c))) c in
      Returned (with_vars (set_dollyStart (dollyEnd (vars c))) c)
  | None => Thrown c
  end.

Definition handleTouchMoveDollyPan (event : PointerEvent) (c : Controller)
  : outcome :=
  handleTouchMoveDolly event c >>= handleTouchMovePan event.

Definition handleTouchMoveDollyRotate (event : PointerEvent) (c : Controller)
  : outcome :=
  handleTouchMoveDolly event c >>= handleTouchMoveRotate event.

(** ** Event handlers: the gesture state machine *)

Definition set_state_of (s : STATE.t) (c : Controller) : Controller :=
  with_vars (set_state s) c.

Definition startIfActive (c : Controller) : Controller :=
  if STATE.is_NONE (state (vars c)) then c else dispatchEvent _startEvent c.

Definition onTouchStart (event : PointerEvent) (c : Controller) : outcome :=
  let c := trackPointer event c in
  (match List.length (pointers (vars c)) with
   | 1%nat =>
       if Z.eqb TOUCHES.ONE TOUCH.ROTATE then
         handleTouchStartRotate event c
         >>= lift (set_state_of STATE.TOUCH_ROTATE)
       else if Z.eqb TOUCHES.ONE TOUCH.PAN then
         handleTouchStartPan event c >>= lift (set_state_of STATE.TOUCH_PAN)
       else Returned (set_state_of STATE.NONE c)
   | 2%nat =>
       if Z.eqb TOUCHES.TWO TOUCH.DOLLY_PAN then
         handleTouchStartDollyPan event c
         >>= lift (set_state_of STATE.TOUCH_DOLLY_PAN)
       else if Z.eqb TOUCHES.TWO TOUCH.DOLLY_ROTATE then
         handleTouchStartDollyRotate event c
         >>= lift (set_state_of STATE.TOUCH_DOLLY_ROTATE)
       else Returned (set_state_of STATE.NONE c)
   | _ => Returned (set_state_of STATE.NONE c)
   end)
  >>= lift startIfActive.

Definition onTouchMove (event : PointerEvent) (c : Controller) : outcome :=
  let c := trackPointer event c in
  match state (vars c) with
  | STATE.TOUCH_ROTATE => handleTouchMoveRotate event c >>= lift update
  | STATE.TOUCH_PAN => handleTouchMovePan event c >>= lift update
  | STATE.TOUCH_DOLLY_PAN => handleTouchMoveDollyPan event c >>= lift update
  | STATE.TOUCH_DOLLY_ROTATE =>
      handleTouchMoveDollyRotate event c >>= lift update
  | _ => Returned (set_state_of STATE.NONE c)
  end.

Definition onMouseDown (event : PointerEvent) (c : Controller) : Controller :=
  let mouseAction :=
    if Z.eqb (button event) 0 then MOUSE_BUTTONS.LEFT
    else if Z.eqb (button event) 1 then MOUSE_BUTTONS.MIDDLE
    else if Z.eqb (button event) 2 then MOUSE_BUTTONS.RIGHT
    else (-1)%Z in
  let c :=
    if Z.eqb mouseAction MOUSE.DOLLY then
      set_state_of STATE.DOLLY (handleMouseDownDolly event c)
    else if Z.eqb mouseAction MOUSE.ROTATE then
      if shiftKey event then set_state_of STATE.PAN (handleMouseDownPan event c)
      else set_state_of STATE.ROTATE (handleMouseDownRotate event c)
    else if Z.eqb mouseAction MOUSE.PAN then
      if shiftKey event then
        set_state_of STATE.ROTATE (handleMouseDownRotate event c)
      else set_state_of STATE.PAN (handleMouseDownPan event c)
    else set_state_of STATE.NONE c in
  startIfActive c.

Definition onMouseMove (event : PointerEvent) (c : Controller) : Controller :=
  match state (vars c) with
  | STATE.ROTATE => handleMouseMoveRotate event c
  | STATE.DOLLY => handleMouseMoveDolly event c
  | STATE.PAN => handleMouseMovePan event c
  | _ => c
  end.

(** The wheel delta [onMouseWheel] hands to [handleMouseWheel]: scaled
    for line and page mode, and once more for a pinch on a trackpad. *)
Definition normalizedDelta (event : WheelEvent) (c : Controller) : R :=
  let deltaY := deltaY event in
  let deltaY :=
    if Z.eqb (deltaMode event) 1 then deltaY * 16 (* LINE_MODE *)
    else if Z.eqb (deltaMode event) 2 then deltaY * 100 (* PAGE_MODE *)
    else deltaY in
  (* detect if event was triggered by pinching *)
  if wheel_ctrlKey event && negb (controlActive (vars c)) then deltaY * 10
  else deltaY.

Definition onMouseWheel (event : WheelEvent) (c : Controller) : Controller :=
  if negb (STATE.is_NONE (state (vars c))) then c
  else
    let c := domCall preventDefault c in
    let c := dispatchEvent _startEvent c in
    let c := handleMouseWheel (normalizedDelta event c) c in
    dispatchEvent _endEvent c.

Definition onKeyDown (event : KeyboardEvent) (c : Controller) : Controller :=
  handleKeyDown event c.

Definition onContextMenu (c : Controller) : Controller :=
  domCall preventDefault c.

Definition onPointerDown (event : PointerEvent) (c : Controller) : outcome :=
  let c :=
    if Nat.eqb (List.length (pointers (vars c))) 0 then
      set_listening true (domCall (setPointerCapture (pointerId event)) c)
    else c in
  if isTrackingPointer event c then Returned c
  else
    let c := addPointer event c in
    if String.eqb (pointerType event) "touch" then onTouchStart event c
    else Returned (onMouseDown event c).

Definition onPointerMove (event : PointerEvent) (c : Controller) : outcome :=
  if String.eqb (pointerType event) "touch" then onTouchMove event c
  else Returned (onMouseMove event c).

(** The "minimal placeholder event" of [onPointerUp]: only [pointerId],
    [pageX] and [pageY] are present, and [onTouchStart] reads no other
    property. *)
Definition placeholderEvent (pointerId : Z) (position : Vector2.t)
  : PointerEvent :=
  mkPointerEvent pointerId "" 0 0 (Vector2.x position) (Vector2.y position)
    0%Z false false.

Definition onPointerUp (event : PointerEvent) (c : Controller) : outcome :=
  let c := removePointer event c in
  match pointers (vars c) with
  | [] =>
      let c := domCall (releasePointerCapture (pointerId event)) c in
      let c := set_listening false c in
      let c := dispatchEvent _endEvent c in
      Returned (set_state_of STATE.NONE c)
  | [pointerId] =>
      match lookupPosition pointerId (pointerPositions (vars c)) with
      | Some position =>
          (* minimal placeholder event - allows state correction on
             pointer-up *)
          onTouchStart (placeholderEvent pointerId position) c
      | None => Thrown c
      end
  | _ => Returned c
  end.

(** ** The controller as a reactive system *)

(** What the host delivers to the listeners the constructor registers. *)
Inductive Input : Type :=
| pointerdown (event : PointerEvent)
| pointermove (event : PointerEvent)
| pointerup (event : PointerEvent)
| pointercancel (event : PointerEvent)
| wheel (event : WheelEvent)
| keydown (event : KeyboardEvent)
| contextmenu.

(** [pointermove] and [pointerup] reach the controller only while the
    listeners [onPointerDown] adds are registered. *)
Definition deliver (i : Input) (c : Controller) : outcome :=
  match i with
  | pointerdown event => onPointerDown event c
  | pointermove event =>
      if listening c then onPointerMove event c else Returned c
  | pointerup event => if listening c then onPointerUp event c else Returned c
  | pointercancel event => onPointerUp event c
  | wheel event => Returned (onMouseWheel event c)
  | keydown event => Returned (onKeyDown event c)
  | contextmenu => Returned (onContextMenu c)
  end.

(** A run of the event loop: a handler that throws is abandoned and the
    loop goes on with the next input. *)
Fixpoint run (inputs : list Input) (c : Controller) : Controller :=
  match inputs with
  | [] => c
  | i :: inputs => run inputs (state_of (deliver i c))
  end.

(** The state the constructor builds before its closing call of [update]. *)
Definition constructed (camera : Camera) (domElement : Element) : Controller :=
  mkController
    (mkOrbitControls camera domElement Vector3.zero Vector3.zero
       0 Infinity 0 Infinity 0 PI NegInfinity Infinity
       1.0 1.0 1.0 7.0 false)
    (mkClosure STATE.NONE Spherical.initial Spherical.initial 1
       Vector3.zero
       Vector2.zero Vector2.zero Vector2.zero
       Vector2.zero Vector2.zero Vector2.zero
       Vector2.zero Vector2.zero Vector2.zero
       [] [] false)
    [] [] false.

(** [new OrbitControls(camera, domElement)] *)
Definition new_OrbitControls (camera : Camera) (domElement : Element)
  : Controller :=
  update (constructed camera domElement).

(** * Vocabulary of the statements *)

(** A quaternion of unit length. *)
Definition unit_length (q : Quaternion.t) : Prop :=
  Quaternion.x q * Quaternion.x q + Quaternion.y q * Quaternion.y q
  + Quaternion.z q * Quaternion.z q + Quaternion.w q * Quaternion.w q = 1.

(** The camera offset [update] starts from, in "y-axis-is-up" space. *)
Definition orbitOffset (c : Controller) : Vector3.t :=
  Vector3.applyQuaternion
    (Vector3.sub (position (camera (this c))) (target (this c)))
    (setFromUnitVectors (up (camera (this c))) (Vector3.mk 0 1 0)).

(** The spherical coordinates entering the clamps of [update]: those of
    the camera offset plus the pending rotation. *)
Definition incoming (c : Controller) : Spherical.t :=
  let s := Spherical.setFromVector3 (orbitOffset c) in
  Spherical.mk (Spherical.radius s)
    (Spherical.phi s + Spherical.phi (sphericalDelta (vars c)))
    (Spherical.theta s + Spherical.theta (sphericalDelta (vars c))).

(** The notifications a step from [c] to [c'] dispatched, newest first:
    what [events c'] has in front of [events c]. *)
Definition dispatched (c c' : Controller) (l : list Notification) : Prop :=
  events c' = l ++ events c.

(** [frame c c']: the step from [c] to [c'] left the object [this] (camera,
    target, configuration) and the spherical state alone, kept a
    nonnegative pending scale nonnegative, and kept a pointer registry
    without duplicates free of duplicates.  Every handler is made of such
    steps around at most one call of [update]. *)
Definition frame (c c' : Controller) : Prop :=
  this c' = this c /\
  spherical (vars c') = spherical (vars c) /\
  (0 <= scale (vars c) -> 0 <= scale (vars c')) /\
  (NoDup (pointers (vars c)) -> NoDup (pointers (vars c'))).

Definition step_shape (c c' : Controller) : Prop :=
  frame c c' \/ exists c1, frame c c1 /\ frame (update c1) c'.

(** The invariant scheme of a run: the configuration satisfies [cfg], the
    pending scale is nonnegative, and the pose and spherical state satisfy
    [Q]. *)
Definition holds (cfg : OrbitControls -> Prop)
  (Q : OrbitControls -> Spherical.t -> Prop) (c : Controller) : Prop :=
  cfg (this c) /\ 0 <= scale (vars c) /\ Q (this c) (spherical (vars c)).

(** Instances of the scheme. *)
Definition no_cfg (o : OrbitControls) : Prop := True.

Definition above_ground (o : OrbitControls) (s : Spherical.t) : Prop :=
  MIN_TARGET_HEIGHT <= Vector3.y (target o).

Definition polar_cfg (o : OrbitControls) : Prop :=
  Spherical.EPS <= minPolarAngle o /\
  minPolarAngle o <= maxPolarAngle o /\
  maxPolarAngle o <= PI - Spherical.EPS.

Definition polar_ok (o : OrbitControls) (s : Spherical.t) : Prop :=
  minPolarAngle o <= Spherical.phi s <= maxPolarAngle o.

Definition distance_cfg (o : OrbitControls) : Prop :=
  le_ext (minDistance o) (maxDistance o) /\ le_ext 0 (maxDistance o).

Definition distance_ok (o : OrbitControls) (s : Spherical.t) : Prop :=
  minDistance o <= Vector3.distanceTo (position (camera o)) (target o) /\
  le_ext (Vector3.distanceTo (position (camera o)) (target o)) (maxDistance o).

(** The host assigns configuration properties of the controller object. *)
Definition set_distances (min : R) (max : ext) (o : OrbitControls)
  : OrbitControls :=
  mkOrbitControls (camera o) (domElement o) (target o) (cursor o)
    min max (minTargetRadius o) (maxTargetRadius o)
    (minPolarAngle o) (maxPolarAngle o) (minAzimuthAngle o) (maxAzimuthAngle o)
    (zoomSpeed o) (rotateSpeed o) (panSpeed o) (keyPanSpeed o) (enableDamping o).

Definition set_polarAngles (min max : R) (o : OrbitControls) : OrbitControls :=
  mkOrbitControls (camera o) (domElement o) (target o) (cursor o)
    (minDistance o) (maxDistance o) (minTargetRadius o) (maxTargetRadius o)
    min max (minAzimuthAngle o) (maxAzimuthAngle o)
    (zoomSpeed o) (rotateSpeed o) (panSpeed o) (keyPanSpeed o) (enableDamping o).

Definition set_azimuthAngles (min max : ext) (o : OrbitControls)
  : OrbitControls :=
  mkOrbitControls (camera o) (domElement o) (target o) (cursor o)
    (minDistance o) (maxDistance o) (minTargetRadius o) (maxTargetRadius o)
    (minPolarAngle o) (maxPolarAngle o) min max
    (zoomSpeed o) (rotateSpeed o) (panSpeed o) (keyPanSpeed o) (enableDamping o).

(** ** Concrete scenes *)

(** A camera with the default up vector at position [p], with a 75 degree
    field of view as in the demo pages, and an engine whose [lookAt] keeps
    the identity orientation. *)
Definition upright_camera (p : Vector3.t) : Camera :=
  mkCamera p (Vector3.mk 0 1 0) Quaternion.identity 75 Matrix4.identity
    (fun _ _ _ => Quaternion.identity).

(** A viewport 500 pixels high. *)
Definition viewport : Element := mkElement 500.

(** The controller of a demo page: camera at (5, 5, 5). *)
Definition demo : Controller :=
  constructed (upright_camera (Vector3.mk 5 5 5)) viewport.

(** The demo controller with a negative distance interval [-2, -1]. *)
Definition negative_distances : Controller :=
  with_this (set_distances (-2) (Fin (-1))) demo.

(** One notch of a mouse wheel, in pixel mode. *)
Definition one_notch : WheelEvent := mkWheelEvent 0 0 100 0%Z false.

(** The distance interval of the tiled demo page: [5, 70]. *)
Definition tiled_demo : Controller :=
  with_this (set_distances 5 (Fin 70)) demo.

(** The demo controller with a polar interval inside (0, PI) but below
    the safe zone. *)
Definition near_pole : Controller :=
  with_this (set_polarAngles 0.0000001 0.0000002) demo.

(** The polar interval of the tiled demo page: [0, PI/2 - 0.1] there; here
    with the lower bound inside the safe zone. *)
Definition tilted_demo : Controller :=
  with_this (set_polarAngles 0.5 1) demo.

(** A mouse event at client position (x, y). *)
Definition mouse_at (x y : R) (button : Z) (shift : bool) : PointerEvent :=
  mkPointerEvent 1%Z "mouse" x y x y button shift false.

(** A left-button drag of 50 pixels to the right. *)
Definition rotate_drag : list Input :=
  [ pointerdown (mouse_at 100 100 0%Z false);
    pointermove (mouse_at 150 100 0%Z false);
    pointerup (mouse_at 150 100 0%Z false) ].

(** The azimuth interval that wraps across 180 degrees: [170, -170]. *)
Definition wrapped_azimuth (c : Controller) : Controller :=
  with_this
    (set_azimuthAngles (Fin (170 * PI / 180)) (Fin (- 170 * PI / 180))) c.

(** A camera straight behind the target, on the negative z axis: its
    azimuthal angle is 180 degrees. *)
Definition facing_back : Controller :=
  wrapped_azimuth (constructed (upright_camera (Vector3.mk 0 0 (-5))) viewport).

(** The demo controller after a left-button press at (100, 100). *)
Definition pressed : Controller :=
  state_of (deliver (pointerdown (mouse_at 100 100 0%Z false)) (update demo)).

(** The pending azimuthal delta. *)
Definition pendingTheta (c : Controller) : R :=
  Spherical.theta (sphericalDelta (vars c)).

(** The host assigns [controls.enableDamping = b]. *)
Definition damping (b : bool) (c : Controller) : Controller :=
  with_this (set_enableDamping b) c.

(** The same assignment on the state an outcome carries. *)
Definition damping_outcome (b : bool) (r : outcome) : outcome :=
  match r with
  | Returned c => Returned (damping b c)
  | Thrown c => Thrown (damping b c)
  end.

(** What the host observes of the controller: the camera pose, the
    target, the spherical state and the notifications. *)
Definition observable (c : Controller)
  : Camera * Vector3.t * Spherical.t * list Notification :=
  (camera (this c), target (this c), spherical (vars c), events c).

(** A touch contact with pointer id [id] at page position (x, y). *)
Definition touch_at (id : Z) (x y : R) : PointerEvent :=
  mkPointerEvent id "touch" x y x y 0%Z false false.

(** Two fingers down, at (100, 100) and (200, 100): separation 100. *)
Definition pinching : Controller :=
  run [ pointerdown (touch_at 1 100 100); pointerdown (touch_at 2 200 100) ]
    (update demo).

(** The second finger moves to (250, 100): separation 150. *)
Definition spread : PointerEvent := touch_at 2 250 100.

(** * Vocabulary of the further properties *)

(** No rotation, pan or zoom is pending. *)
Definition settled (c : Controller) : Prop :=
  sphericalDelta (vars c) = Spherical.mk 0 0 0 /\
  panOffset (vars c) = Vector3.mk 0 0 0 /\
  scale (vars c) = 1.

(** The azimuthal limits take part in [update] only when both are
    finite. *)
Definition azimuthLimited (o : OrbitControls) : bool :=
  match minAzimuthAngle o, maxAzimuthAngle o with
  | Fin _, Fin _ => true
  | _, _ => false
  end.

(** The wheel event opposite to [e]: the same but for the sign of
    [deltaY]. *)
Definition opposite (e : WheelEvent) : WheelEvent :=
  mkWheelEvent (wheel_clientX e) (wheel_clientY e) (- deltaY e)
    (deltaMode e) (wheel_ctrlKey e).

(** The angles an azimuthal interval allows: those between the bounds
    when [min <= max], and those above [min] or below [max] when the
    interval wraps across 180 degrees. *)
Definition azimuthAllowed (min max theta : R) : Prop :=
  (min <= max -> min <= theta <= max) /\
  (max < min -> min <= theta \/ theta <= max).

(** Finite azimuthal bounds inside [-PI, PI]. *)
Definition azimuth_cfg (o : OrbitControls) : Prop :=
  exists a b,
    minAzimuthAngle o = Fin a /\ maxAzimuthAngle o = Fin b /\
    - PI <= a <= PI /\ - PI <= b <= PI.

Definition azimuth_ok (o : OrbitControls) (s : Spherical.t) : Prop :=
  forall a b,
    minAzimuthAngle o = Fin a -> maxAzimuthAngle o = Fin b ->
    azimuthAllowed a b (Spherical.theta s).

(** The demo controller with azimuth limited to [-PI/2, PI/2]. *)
Definition front_half : Controller :=
  with_this (set_azimuthAngles (Fin (- (PI / 2))) (Fin (PI / 2))) demo.

Definition set_targetRadius (min : R) (max : ext) (o : OrbitControls)
  : OrbitControls :=
  mkOrbitControls (camera o) (domElement o) (target o) (cursor o)
    (minDistance o) (maxDistance o) min max
    (minPolarAngle o) (maxPolarAngle o) (minAzimuthAngle o) (maxAzimuthAngle o)
    (zoomSpeed o) (rotateSpeed o) (panSpeed o) (keyPanSpeed o) (enableDamping o).

(** The demo controller with target limits [0.5, 70] and a pending pan of
    one unit upwards. *)
Definition panned : Controller :=
  with_vars (set_panOffset (Vector3.mk 0 1 0))
    (with_this (set_targetRadius 0.5 (Fin 70)) demo).

(** The configuration of the controller object and the properties of the
    camera that belong to the engine: everything of [this] but the camera
    position, the camera orientation and the target. *)
Definition same_settings (o o' : OrbitControls) : Prop :=
  domElement o' = domElement o /\
  cursor o' = cursor o /\
  minDistance o' = minDistance o /\
  maxDistance o' = maxDistance o /\
  minTargetRadius o' = minTargetRadius o /\
  maxTargetRadius o' = maxTargetRadius o /\
  minPolarAngle o' = minPolarAngle o /\
  maxPolarAngle o' = maxPolarAngle o /\
  minAzimuthAngle o' = minAzimuthAngle o /\
  maxAzimuthAngle o' = maxAzimuthAngle o /\
  zoomSpeed o' = zoomSpeed o /\
  rotateSpeed o' = rotateSpeed o /\
  panSpeed o' = panSpeed o /\
  keyPanSpeed o' = keyPanSpeed o /\
  enableDamping o' = enableDamping o /\
  up (camera o') = up (camera o) /\
  fov (camera o') = fov (camera o) /\
  matrix (camera o') = matrix (camera o) /\
  lookAt_method (camera o') = lookAt_method (camera o).

(** The three pending deltas are the same in [c'] as in [c]. *)
Definition same_pending (c c' : Controller) : Prop :=
  sphericalDelta (vars c') = sphericalDelta (vars c) /\
  panOffset (vars c') = panOffset (vars c) /\
  scale (vars c') = scale (vars c).

(** Inputs of a touch screen: every pointer event is a touch. *)
Definition touch_only (i : Input) : Prop :=
  match i with
  | pointerdown e | pointermove e | pointerup e | pointercancel e =>
      pointerType e = "touch"%string
  | _ => True
  end.

(** No handler throws along the run. *)
Fixpoint never_throws (inputs : list Input) (c : Controller) : Prop :=
  match inputs with
  | [] => True
  | i :: inputs =>
      (exists c', deliver i c = Returned c') /\
      never_throws inputs (state_of (deliver i c))
  end.

(** The registry, the recorded positions and the gesture state are the
    same in [c'] as in [c]. *)
Definition same_registry (c c' : Controller) : Prop :=
  pointers (vars c') = pointers (vars c) /\
  pointerPositions (vars c') = pointerPositions (vars c) /\
  state (vars c') = state (vars c).

(** Every registered pointer has a recorded position. *)
Definition tracked (c : Controller) : Prop :=
  forall p, In p (pointers (vars c)) ->
            lookupPosition p (pointerPositions (vars c)) <> None.

(** What holds of the registry along a touch-only run. *)
Definition touch_inv (c : Controller) : Prop :=
  NoDup (pointers (vars c)) /\
  tracked c /\
  match state (vars c) with
  | STATE.NONE => True
  | STATE.TOUCH_ROTATE => List.length (pointers (vars c)) = 1%nat
  | STATE.TOUCH_DOLLY_PAN => List.length (pointers (vars c)) = 2%nat
  | _ => False
  end.

(** A pinch: two fingers down, the second one moves, both lift. *)
Definition pinch : list Input :=
  [ pointerdown (touch_at 1 100 100);
    pointerdown (touch_at 2 200 100);
    pointermove spread;
    pointerup spread;
    pointerup (touch_at 1 100 100) ].

(** The buttons [onMouseDown] maps to an action: left, middle, right. *)
Definition mapped_button (b : Z) : bool :=
  Z.eqb b 0 || Z.eqb b 1 || Z.eqb b 2.

(** A press and release of a mouse button without movement. *)
Definition click (e : PointerEvent) : list Input :=
  [pointerdown e; pointerup e].

(** The arrow keys [handleKeyDown] acts on. *)
Definition arrow_key (code : string) : bool :=
  String.eqb code KEYS.UP || String.eqb code KEYS.BOTTOM
  || String.eqb code KEYS.LEFT || String.eqb code KEYS.RIGHT.

(** A key press of the letter A. *)
Definition key_a : KeyboardEvent := mkKeyboardEvent "KeyA" false.

(** The demo controller after a press of the right button at (100, 100),
    and after a press of the middle button there. *)
Definition pan_pressed : Controller :=
  state_of (deliver (pointerdown (mouse_at 100 100 2%Z false)) (update demo)).

Definition dolly_pressed : Controller :=
  state_of (deliver (pointerdown (mouse_at 100 100 1%Z false)) (update demo)).

(** * Properties *)

(** ** Numbers and vectors *)

Lemma gtb_true (a b : R) : b < a -> gtb a b = true.
Proof. intros H. unfold gtb. destruct (Rlt_dec b a); [reflexivity | contradiction]. Qed.

Lemma clamp_ext_lower (lo : R) (hi : ext) (v : R) : lo <= clamp_ext lo hi v.
Proof.
  destruct hi; simpl; [lra | apply Rmax_l | apply Rmax_l].
Qed.

Lemma clamp_ext_upper (lo : R) (hi : ext) (v : R) :
  le_ext lo hi -> le_ext (clamp_ext lo hi v) hi.
Proof.
  destruct hi as [ | h | ]; simpl; intros H; try exact H.
  apply Rmax_lub; [exact H | apply Rmin_l].
Qed.

Lemma clamp_ext_nonneg (lo : R) (hi : ext) (v : R) :
  le_ext lo hi -> le_ext 0 hi -> 0 <= v -> 0 <= clamp_ext lo hi v.
Proof.
  destruct hi as [ | h | ]; simpl; intros Hlo H0 Hv.
  - contradiction.
  - apply Rle_trans with (Rmin h v); [apply Rmin_glb; assumption | apply Rmax_r].
  - apply Rle_trans with v; [assumption | apply Rmax_r].
Qed.

Lemma normalize_unit (q : Quaternion.t) : unit_length (Quaternion.normalize q).
Proof.
  unfold Quaternion.normalize, unit_length.
  destruct (Req_dec_T (Quaternion.length q) 0) as [E | N]; simpl.
  - ring.
  - unfold Quaternion.length in *.
    set (n := Quaternion.x q * Quaternion.x q + Quaternion.y q * Quaternion.y q
              + Quaternion.z q * Quaternion.z q + Quaternion.w q * Quaternion.w q) in *.
    assert (Hn : 0 <= n) by (unfold n; nra).
    pose proof (sqrt_sqrt n Hn) as Hs.
    replace (Quaternion.x q * (1 / sqrt n) * (Quaternion.x q * (1 / sqrt n))
             + Quaternion.y q * (1 / sqrt n) * (Quaternion.y q * (1 / sqrt n))
             + Quaternion.z q * (1 / sqrt n) * (Quaternion.z q * (1 / sqrt n))
             + Quaternion.w q * (1 / sqrt n) * (Quaternion.w q * (1 / sqrt n)))
      with (n / (sqrt n * sqrt n)) by (unfold n; field; exact N).
    rewrite Hs. field. intros Z. apply N. rewrite Z. apply sqrt_0.
Qed.

Lemma setFromUnitVectors_unit (a b : Vector3.t) : unit_length (setFromUnitVectors a b).
Proof. unfold setFromUnitVectors. apply normalize_unit. Qed.

Lemma invert_unit (q : Quaternion.t) : unit_length q -> unit_length (Quaternion.invert q).
Proof. unfold unit_length, Quaternion.invert. simpl. intros H. nra. Qed.

(** Rotating by a unit_length quaternion keeps the squared length. *)
Lemma applyQuaternion_lengthSq (v : Vector3.t) (q : Quaternion.t) :
  unit_length q ->
  Vector3.lengthSq (Vector3.applyQuaternion v q) = Vector3.lengthSq v.
Proof.
  unfold unit_length, Vector3.lengthSq, Vector3.applyQuaternion.
  destruct v as [vx vy vz], q as [qx qy qz qw]. simpl. intros H.
  set (tx := 2 * (qy * vz - qz * vy)).
  set (ty := 2 * (qz * vx - qx * vz)).
  set (tz := 2 * (qx * vy - qy * vx)).
  transitivity
    (vx * vx + vy * vy + vz * vz
     + (tx * tx + ty * ty + tz * tz)
       * (qx * qx + qy * qy + qz * qz + qw * qw - 1)).
  - unfold tx, ty, tz. ring.
  - rewrite H. ring.
Qed.

Lemma setFromSpherical_lengthSq (s : Spherical.t) :
  Vector3.lengthSq (setFromSpherical s)
  = Spherical.radius s * Spherical.radius s.
Proof.
  unfold setFromSpherical, Vector3.setFromSphericalCoords, Vector3.lengthSq.
  simpl.
  pose proof (sin2_cos2 (Spherical.phi s)) as Hp.
  pose proof (sin2_cos2 (Spherical.theta s)) as Ht.
  unfold Rsqr in Hp, Ht.
  set (sp := sin (Spherical.phi s)) in *. set (cp := cos (Spherical.phi s)) in *.
  set (st := sin (Spherical.theta s)) in *. set (ct := cos (Spherical.theta s)) in *.
  set (r := Spherical.radius s).
  transitivity (r * r * (sp * sp * (st * st + ct * ct) + cp * cp)); [ring | ].
  rewrite Ht. replace (sp * sp * 1 + cp * cp) with (sp * sp + cp * cp) by ring.
  rewrite Hp. ring.
Qed.

Lemma EPS_lt_PI : Spherical.EPS < PI - Spherical.EPS.
Proof. pose proof PI2_1. unfold Spherical.EPS. lra. Qed.

(** ** What [update] leaves behind *)

Ltac update_if :=
  unfold update; cbv zeta;
  match goal with
  | |- context [if ?b then _ else _] => destruct b
  end; reflexivity.

Lemma update_target (c : Controller) :
  target (this (update c)) = moveTarget (this c) (panOffset (vars c)).
Proof. update_if. Qed.

Lemma update_spherical (c : Controller) :
  spherical (vars (update c))
  = Spherical.mk
      (clampDistance (this c)
         (Spherical.radius (incoming c) * scale (vars c)))
      (Rmax Spherical.EPS
         (Rmin (PI - Spherical.EPS)
            (Rmax (minPolarAngle (this c))
               (Rmin (maxPolarAngle (this c)) (Spherical.phi (incoming c))))))
      (restrictTheta (this c) (Spherical.theta (incoming c))).
Proof. update_if. Qed.

Lemma update_position (c : Controller) :
  position (camera (this (update c)))
  = Vector3.add (target (this (update c)))
      (Vector3.applyQuaternion
         (setFromSpherical (spherical (vars (update c))))
         (Quaternion.invert
            (setFromUnitVectors (up (camera (this c))) (Vector3.mk 0 1 0)))).
Proof. update_if. Qed.

Lemma update_scale (c : Controller) : scale (vars (update c)) = 1.
Proof. update_if. Qed.

Lemma update_sphericalDelta (c : Controller) :
  sphericalDelta (vars (update c)) = Spherical.mk 0 0 0.
Proof. update_if. Qed.

Lemma update_panOffset (c : Controller) :
  panOffset (vars (update c)) = Vector3.mk 0 0 0.
Proof. update_if. Qed.

(** [update] writes the camera and the target and nothing else of [this]. *)
Lemma update_this (c : Controller) :
  this (update c)
  = set_camera_target (camera (this (update c))) (target (this (update c)))
      (this c).
Proof. update_if. Qed.

Lemma update_up (c : Controller) :
  up (camera (this (update c))) = up (camera (this c)).
Proof. update_if. Qed.

Lemma update_dom (c : Controller) : dom (update c) = dom c.
Proof. update_if. Qed.

Lemma update_listening (c : Controller) : listening (update c) = listening c.
Proof. update_if. Qed.

Lemma update_state (c : Controller) : state (vars (update c)) = state (vars c).
Proof. update_if. Qed.

(** [update] writes [spherical] and resets the three pending deltas; the
    other captured variables keep their values. *)
Lemma update_vars (c : Controller) :
  vars (update c)
  = set_scale 1
      (set_panOffset (Vector3.mk 0 0 0)
         (set_sphericalDelta (Spherical.mk 0 0 0)
            (set_spherical (spherical (vars (update c))) (vars c)))).
Proof. update_if. Qed.

(** The target [update] leaves is never below the ground level. *)
Lemma moveTarget_height (o : OrbitControls) (p : Vector3.t) :
  MIN_TARGET_HEIGHT <= Vector3.y (moveTarget o p).
Proof. unfold moveTarget. cbv zeta. simpl. apply Rmax_r. Qed.

Lemma distanceToSquared_origin (t : Vector3.t) :
  MIN_TARGET_HEIGHT <= Vector3.y t ->
  EPS < Vector3.distanceToSquared Vector3.zero t.
Proof.
  destruct t as [tx ty tz]. unfold Vector3.distanceToSquared, Vector3.zero.
  simpl. unfold MIN_TARGET_HEIGHT, EPS. intros H. nra.
Qed.

(** The fourth disjunct of the update condition compares the new target
    with a fresh zero vector, and the target is at least [MIN_TARGET_HEIGHT]
    above the origin: the condition always holds. *)
Lemma update_events (c : Controller) :
  events (update c) = _changeEvent :: events c.
Proof.
  unfold update. cbv zeta.
  match goal with
  | |- context [if ?b then _ else _] =>
      assert (E : b = true); [ | rewrite E; reflexivity ]
  end.
  apply orb_true_intro. right. apply gtb_true.
  apply distanceToSquared_origin. apply moveTarget_height.
Qed.

(** ** Handlers are frames around at most one [update] *)

Lemma frame_refl (c : Controller) : frame c c.
Proof. unfold frame. auto. Qed.

Lemma frame_trans (a b c : Controller) : frame a b -> frame b c -> frame a c.
Proof.
  unfold frame. intros (T1 & S1 & P1 & N1) (T2 & S2 & P2 & N2).
  repeat split; [congruence | congruence | auto | auto].
Qed.

Lemma Math_pow_nonneg (b e : R) : 0 <= Math_pow b e.
Proof.
  unfold Math_pow.
  destruct (Req_dec_T e 0); [lra | ].
  destruct (Req_dec_T b 0); [lra | ].
  left. unfold Rpower. apply exp_pos.
Qed.

Lemma Rdiv_nonneg (a b : R) : 0 <= a -> 0 <= b -> 0 <= a / b.
Proof.
  intros Ha Hb. unfold Rdiv. destruct (Req_dec_T b 0) as [E | N].
  - rewrite E, Rinv_0. lra.
  - apply Rmult_le_pos; [assumption | ].
    left. apply Rinv_0_lt_compat. lra.
Qed.

Lemma frame_dollyOut (f : R) (c : Controller) : 0 <= f -> frame c (dollyOut f c).
Proof.
  intros Hf. unfold frame, dollyOut. simpl. repeat split; auto.
  intros Hs. apply Rdiv_nonneg; assumption.
Qed.

Lemma frame_dollyIn (f : R) (c : Controller) : 0 <= f -> frame c (dollyIn f c).
Proof.
  intros Hf. unfold frame, dollyIn. simpl. repeat split; auto.
  intros Hs. apply Rmult_le_pos; assumption.
Qed.

Lemma getZoomScale_nonneg (o : OrbitControls) (delta : R) :
  0 <= getZoomScale o delta.
Proof. apply Math_pow_nonneg. Qed.

(** A step that writes captured variables other than [spherical] and
    [scale], or only logs, is a frame. *)
Ltac frame_plain := unfold frame; simpl; repeat split; auto.

Lemma frame_dispatchEvent (n : Notification) (c : Controller) :
  frame c (dispatchEvent n c).
Proof. frame_plain. Qed.

Lemma frame_domCall (d : DomCall) (c : Controller) : frame c (domCall d c).
Proof. frame_plain. Qed.

Lemma frame_set_listening (b : bool) (c : Controller) :
  frame c (set_listening b c).
Proof. frame_plain. Qed.

Lemma frame_set_state_of (s : STATE.t) (c : Controller) :
  frame c (set_state_of s c).
Proof. frame_plain. Qed.

Lemma frame_startIfActive (c : Controller) : frame c (startIfActive c).
Proof.
  unfold startIfActive. destruct (STATE.is_NONE _);
    [apply frame_refl | apply frame_dispatchEvent].
Qed.

Lemma frame_rotateLeft (a : R) (c : Controller) : frame c (rotateLeft a c).
Proof. frame_plain. Qed.

Lemma frame_rotateUp (a : R) (c : Controller) : frame c (rotateUp a c).
Proof. frame_plain. Qed.

Lemma frame_pan (dx dy : R) (c : Controller) : frame c (pan dx dy c).
Proof. frame_plain. Qed.

Lemma frame_trackPointer (e : PointerEvent) (c : Controller) :
  frame c (trackPointer e c).
Proof. frame_plain. Qed.

(** [onPointerDown] registers a pointer only when it is not tracked. *)
Lemma frame_addPointer (e : PointerEvent) (c : Controller) :
  isTrackingPointer e c = false -> frame c (addPointer e c).
Proof.
  intros G. unfold frame, addPointer. simpl. repeat split; auto.
  unfold isTrackingPointer in G. intros N.
  apply NoDup_app; [exact N | repeat constructor; intros [] | ].
  intros x Hx [<- | []].
  assert (T : existsb (Z.eqb (pointerId e)) (pointers (vars c)) = true).
  { apply existsb_exists. exists (pointerId e).
    split; [exact Hx | apply Z.eqb_refl]. }
  congruence.
Qed.

Lemma spliceFirst_incl (id : Z) (l : list Z) (p : Z) :
  In p (spliceFirst id l) -> In p l.
Proof.
  induction l as [ | q l IH]; simpl; [tauto | ].
  destruct (Z.eqb q id); simpl; tauto.
Qed.

Lemma spliceFirst_NoDup (id : Z) (l : list Z) :
  NoDup l -> NoDup (spliceFirst id l).
Proof.
  induction l as [ | q l IH]; simpl; intros N; [exact N | ].
  inversion N as [ | ? ? Hq Hl]; subst.
  destruct (Z.eqb q id); [exact Hl | ].
  constructor; [ | exact (IH Hl)].
  intros I. apply Hq. exact (spliceFirst_incl _ _ _ I).
Qed.

Lemma frame_removePointer (e : PointerEvent) (c : Controller) :
  frame c (removePointer e c).
Proof.
  unfold frame, removePointer. simpl. repeat split; auto.
  apply spliceFirst_NoDup.
Qed.

Lemma frame_accumulateMouseMoveRotate (e : PointerEvent) (c : Controller) :
  frame c (accumulateMouseMoveRotate e c).
Proof. frame_plain. Qed.

Lemma frame_accumulateMouseMovePan (e : PointerEvent) (c : Controller) :
  frame c (accumulateMouseMovePan e c).
Proof. frame_plain. Qed.

Lemma frame_accumulateMouseMoveDolly (e : PointerEvent) (c : Controller) :
  frame c (accumulateMouseMoveDolly e c).
Proof.
  unfold accumulateMouseMoveDolly. cbv zeta.
  match goal with
  | |- frame _ (with_vars _ ?x) => apply frame_trans with x; [ | frame_plain]
  end.
  match goal with
  | |- frame _ (if _ then _ else if _ then _ else ?x) =>
      apply frame_trans with x; [frame_plain | ]
  end.
  destruct (Rlt_dec _ _); [apply frame_dollyOut, getZoomScale_nonneg | ].
  destruct (Rlt_dec _ _); [apply frame_dollyIn, getZoomScale_nonneg | ].
  apply frame_refl.
Qed.

Lemma frame_accumulateMouseWheel (d : R) (c : Controller) :
  frame c (accumulateMouseWheel d c).
Proof.
  unfold accumulateMouseWheel.
  destruct (Rlt_dec _ _); [apply frame_dollyIn, getZoomScale_nonneg | ].
  destruct (Rlt_dec _ _); [apply frame_dollyOut, getZoomScale_nonneg | ].
  apply frame_refl.
Qed.

Lemma frame_accumulateKeyDown (e : KeyboardEvent) (c c1 : Controller) :
  accumulateKeyDown e c = Some c1 -> frame c c1.
Proof.
  unfold accumulateKeyDown. cbv zeta.
  repeat (destruct (String.eqb _ _));
    try discriminate;
    intros E; injection E as <-; destruct (key_shiftKey e);
    first [apply frame_rotateUp | apply frame_rotateLeft | apply frame_pan].
Qed.

Lemma frame_andThen (c : Controller) (r : outcome) (k : Controller -> outcome) :
  frame c (state_of r) ->
  (forall c1, frame c1 (state_of (k c1))) ->
  frame c (state_of (r >>= k)).
Proof.
  intros Hr Hk. destruct r as [c1 | c1]; simpl in *.
  - apply frame_trans with c1; [assumption | apply Hk].
  - assumption.
Qed.

Lemma frame_lift (f : Controller -> Controller) :
  (forall c, frame c (f c)) -> forall c, frame c (state_of (lift f c)).
Proof. intros H c. apply H. Qed.

Lemma shape_of_frame (c c' : Controller) : frame c c' -> step_shape c c'.
Proof. intros H. left. exact H. Qed.

Lemma shape_update (c c1 : Controller) : frame c c1 -> step_shape c (update c1).
Proof. intros H. right. exists c1. split; [exact H | apply frame_refl]. Qed.

Lemma shape_then_update (c : Controller) (r : outcome) :
  frame c (state_of r) -> step_shape c (state_of (r >>= lift update)).
Proof.
  intros H. destruct r as [c1 | c1]; simpl in *.
  - apply shape_update. exact H.
  - left. exact H.
Qed.

Lemma shape_then_frame (c c1 c2 : Controller) :
  step_shape c c1 -> frame c1 c2 -> step_shape c c2.
Proof.
  intros [H | (m & H1 & H2)] F.
  - left. apply frame_trans with c1; assumption.
  - right. exists m. split; [assumption | apply frame_trans with c1; assumption].
Qed.

Lemma shape_after_frame (c c1 c2 : Controller) :
  frame c c1 -> step_shape c1 c2 -> step_shape c c2.
Proof.
  intros F [H | (m & H1 & H2)].
  - left. apply frame_trans with c1; assumption.
  - right. exists m. split; [apply frame_trans with c1; assumption | assumption].
Qed.

Lemma frame_handleTouchStartRotate (e : PointerEvent) (c : Controller) :
  frame c (state_of (handleTouchStartRotate e c)).
Proof.
  unfold handleTouchStartRotate. destruct (touchAnchor e c); simpl;
    [frame_plain | apply frame_refl].
Qed.

Lemma frame_handleTouchStartPan (e : PointerEvent) (c : Controller) :
  frame c (state_of (handleTouchStartPan e c)).
Proof.
  unfold handleTouchStartPan. destruct (touchAnchor e c); simpl;
    [frame_plain | apply frame_refl].
Qed.

Lemma frame_handleTouchStartDolly (e : PointerEvent) (c : Controller) :
  frame c (state_of (handleTouchStartDolly e c)).
Proof.
  unfold handleTouchStartDolly. destruct (touchDistance e c); simpl;
    [frame_plain | apply frame_refl].
Qed.

Lemma frame_handleTouchMoveRotate (e : PointerEvent) (c : Controller) :
  frame c (state_of (handleTouchMoveRotate e c)).
Proof.
  unfold handleTouchMoveRotate. destruct (touchAnchor e c); simpl;
    [frame_plain | apply frame_refl].
Qed.

Lemma frame_handleTouchMovePan (e : PointerEvent) (c : Controller) :
  frame c (state_of (handleTouchMovePan e c)).
Proof.
  unfold handleTouchMovePan. destruct (touchAnchor e c); simpl;
    [frame_plain | apply frame_refl].
Qed.

Lemma frame_handleTouchMoveDolly (e : PointerEvent) (c : Controller) :
  frame c (state_of (handleTouchMoveDolly e c)).
Proof.
  unfold handleTouchMoveDolly. destruct (touchDistance e c) as [d | ];
    [ | apply frame_refl].
  cbv zeta. unfold state_of.
  match goal with
  | |- frame _ (with_vars _ (dollyOut ?f ?x)) =>
      apply frame_trans with x; [frame_plain | ];
      apply frame_trans with (dollyOut f x); [ | frame_plain];
      apply frame_dollyOut
  end.
  simpl. apply Math_pow_nonneg.
Qed.

Lemma frame_onTouchStart (e : PointerEvent) (c : Controller) :
  frame c (state_of (onTouchStart e c)).
Proof.
  unfold onTouchStart. cbv zeta.
  apply frame_trans with (trackPointer e c); [apply frame_trackPointer | ].
  apply frame_andThen; [ | apply frame_lift, frame_startIfActive].
  destruct (List.length _) as [ | [ | [ | n]]]; simpl Z.eqb; cbv iota;
    try apply frame_set_state_of.
  - apply frame_andThen;
      [apply frame_handleTouchStartRotate | apply frame_lift, frame_set_state_of].
  - apply frame_andThen; [ | apply frame_lift, frame_set_state_of].
    unfold handleTouchStartDollyPan.
    apply frame_andThen;
      [apply frame_handleTouchStartDolly | apply frame_handleTouchStartPan].
Qed.

Lemma shape_onTouchMove (e : PointerEvent) (c : Controller) :
  step_shape c (state_of (onTouchMove e c)).
Proof.
  unfold onTouchMove. cbv zeta.
  apply shape_after_frame with (trackPointer e c);
    [apply frame_trackPointer | ].
  destruct (state _);
    try (apply shape_of_frame, frame_set_state_of);
    apply shape_then_update.
  - apply frame_handleTouchMoveRotate.
  - apply frame_handleTouchMovePan.
  - unfold handleTouchMoveDollyPan.
    apply frame_andThen;
      [apply frame_handleTouchMoveDolly | apply frame_handleTouchMovePan].
  - unfold handleTouchMoveDollyRotate.
    apply frame_andThen;
      [apply frame_handleTouchMoveDolly | apply frame_handleTouchMoveRotate].
Qed.

Lemma frame_onMouseDown (e : PointerEvent) (c : Controller) :
  frame c (onMouseDown e c).
Proof.
  unfold onMouseDown. cbv zeta.
  match goal with
  | |- frame _ (startIfActive ?x) =>
      apply frame_trans with x; [ | apply frame_startIfActive]
  end.
  repeat match goal with
         | |- context [if ?b then _ else _] => destruct b
         end; frame_plain.
Qed.

Lemma shape_onMouseMove (e : PointerEvent) (c : Controller) :
  step_shape c (onMouseMove e c).
Proof.
  unfold onMouseMove. destruct (state _);
    try (apply shape_of_frame, frame_refl); apply shape_update.
  - apply frame_accumulateMouseMoveRotate.
  - apply frame_accumulateMouseMoveDolly.
  - apply frame_accumulateMouseMovePan.
Qed.

Lemma shape_onMouseWheel (e : WheelEvent) (c : Controller) :
  step_shape c (onMouseWheel e c).
Proof.
  unfold onMouseWheel. destruct (negb _); [apply shape_of_frame, frame_refl | ].
  cbv zeta. eapply shape_then_frame; [ | apply frame_dispatchEvent].
  unfold handleMouseWheel. apply shape_update.
  eapply frame_trans; [ | apply frame_accumulateMouseWheel].
  eapply frame_trans; [apply frame_domCall | apply frame_dispatchEvent].
Qed.

Lemma shape_onKeyDown (e : KeyboardEvent) (c : Controller) :
  step_shape c (onKeyDown e c).
Proof.
  unfold onKeyDown, handleKeyDown.
  destruct (accumulateKeyDown e c) as [c1 | ] eqn:E;
    [ | apply shape_of_frame, frame_refl].
  apply shape_update.
  eapply frame_trans; [eapply frame_accumulateKeyDown; exact E | apply frame_domCall].
Qed.

Lemma frame_onPointerDown (e : PointerEvent) (c : Controller) :
  frame c (state_of (onPointerDown e c)).
Proof.
  unfold onPointerDown. cbv zeta.
  match goal with
  | |- context [isTrackingPointer e ?x] =>
      apply frame_trans with x;
      [destruct (Nat.eqb _ _); [frame_plain | apply frame_refl] | generalize x]
  end.
  intros c1. destruct (isTrackingPointer e c1) eqn:G; [apply frame_refl | ].
  apply frame_trans with (addPointer e c1);
    [apply frame_addPointer; exact G | ].
  destruct (String.eqb _ _); [apply frame_onTouchStart | apply frame_onMouseDown].
Qed.

Lemma frame_onPointerUp (e : PointerEvent) (c : Controller) :
  frame c (state_of (onPointerUp e c)).
Proof.
  unfold onPointerUp. cbv zeta.
  apply frame_trans with (removePointer e c); [apply frame_removePointer | ].
  generalize (removePointer e c). intros c1.
  destruct (pointers (vars c1)) as [ | p [ | q l]].
  - frame_plain.
  - destruct (lookupPosition _ _); [apply frame_onTouchStart | apply frame_refl].
  - apply frame_refl.
Qed.

(** Every input is handled by frames around at most one [update]. *)
Lemma shape_deliver (i : Input) (c : Controller) :
  step_shape c (state_of (deliver i c)).
Proof.
  destruct i as [e | e | e | e | e | e | ]; simpl.
  - apply shape_of_frame, frame_onPointerDown.
  - destruct (listening c); [ | apply shape_of_frame, frame_refl].
    unfold onPointerMove. destruct (String.eqb _ _);
      [apply shape_onTouchMove | apply shape_onMouseMove].
  - destruct (listening c);
      apply shape_of_frame; [apply frame_onPointerUp | apply frame_refl].
  - apply shape_of_frame, frame_onPointerUp.
  - apply shape_onMouseWheel.
  - apply shape_onKeyDown.
  - apply shape_of_frame, frame_domCall.
Qed.

(** ** Invariants of a run *)

Lemma frame_this (c c' : Controller) : frame c c' -> this c' = this c.
Proof. intros (H & _). exact H. Qed.

Lemma frame_spherical (c c' : Controller) :
  frame c c' -> spherical (vars c') = spherical (vars c).
Proof. intros (_ & H & _). exact H. Qed.

Lemma frame_scale (c c' : Controller) :
  frame c c' -> 0 <= scale (vars c) -> 0 <= scale (vars c').
Proof. intros (_ & _ & H & _). exact H. Qed.

Lemma frame_NoDup (c c' : Controller) :
  frame c c' ->
  NoDup (pointers (vars c)) -> NoDup (pointers (vars c')).
Proof. intros (_ & _ & _ & H). exact H. Qed.

Section RunInvariant.

(** [cfg] constrains the configuration and [Q] is a property of the pose
    and the spherical state that [update] establishes under [cfg]. *)
Variable cfg : OrbitControls -> Prop.
Variable Q : OrbitControls -> Spherical.t -> Prop.

Hypothesis cfg_stable :
  forall o cam tg, cfg o -> cfg (set_camera_target cam tg o).

Hypothesis update_establishes :
  forall c, cfg (this c) -> 0 <= scale (vars c) ->
            Q (this (update c)) (spherical (vars (update c))).

Local Abbreviation inv := (holds cfg Q).

Lemma holds_frame (c c' : Controller) : frame c c' -> inv c -> inv c'.
Proof.
  intros F (Hc & Hs & Hq). unfold holds.
  rewrite (frame_this _ _ F), (frame_spherical _ _ F).
  repeat split; [assumption | apply (frame_scale _ _ F); assumption | assumption].
Qed.

Lemma holds_update (c : Controller) :
  cfg (this c) -> 0 <= scale (vars c) -> inv (update c).
Proof.
  intros Hc Hs. unfold holds. repeat split.
  - rewrite update_this. apply cfg_stable. exact Hc.
  - rewrite update_scale. lra.
  - apply update_establishes; assumption.
Qed.

Lemma holds_step (c c' : Controller) : step_shape c c' -> inv c -> inv c'.
Proof.
  intros [F | (c1 & F1 & F2)] H.
  - exact (holds_frame _ _ F H).
  - apply (holds_frame _ _ F2). apply holds_update.
    + rewrite (frame_this _ _ F1). apply H.
    + apply (frame_scale _ _ F1). apply H.
Qed.

Lemma holds_run (inputs : list Input) (c : Controller) :
  inv c -> inv (run inputs c).
Proof.
  revert c. induction inputs as [ | i inputs IH]; intros c H; simpl.
  - exact H.
  - apply IH. apply (holds_step c); [apply shape_deliver | exact H].
Qed.

End RunInvariant.

Lemma distanceTo_add (t o : Vector3.t) :
  Vector3.distanceTo (Vector3.add t o) t = sqrt (Vector3.lengthSq o).
Proof.
  unfold Vector3.distanceTo, Vector3.distanceToSquared, Vector3.lengthSq.
  destruct t, o. simpl. f_equal. ring.
Qed.

(** After [update] the camera is at distance |radius| from the target. *)
Lemma getDistance_update (c : Controller) :
  getDistance (update c)
  = Rabs (Spherical.radius (spherical (vars (update c)))).
Proof.
  unfold getDistance. rewrite update_position, distanceTo_add.
  rewrite applyQuaternion_lengthSq
    by (apply invert_unit, setFromUnitVectors_unit).
  rewrite setFromSpherical_lengthSq. apply sqrt_Rsqr_abs.
Qed.

Lemma incoming_radius_nonneg (c : Controller) :
  0 <= Spherical.radius (incoming c).
Proof.
  unfold incoming, Spherical.setFromVector3, Spherical.setFromCartesianCoords.
  cbv zeta. destruct (Req_dec_T _ _); simpl; apply sqrt_pos.
Qed.

Lemma set_camera_target_config (cam : Camera) (tg : Vector3.t) (o : OrbitControls) :
  minDistance (set_camera_target cam tg o) = minDistance o /\
  maxDistance (set_camera_target cam tg o) = maxDistance o /\
  minPolarAngle (set_camera_target cam tg o) = minPolarAngle o /\
  maxPolarAngle (set_camera_target cam tg o) = maxPolarAngle o.
Proof. repeat split. Qed.

(** A run writes only the camera and the target of [this]: the
    configuration stays as the host set it. *)
Lemma step_this (c c' : Controller) :
  step_shape c c' ->
  exists cam tg, this c' = set_camera_target cam tg (this c).
Proof.
  intros [F | (c1 & F1 & F2)].
  - exists (camera (this c)), (target (this c)).
    rewrite (frame_this _ _ F). destruct (this c); reflexivity.
  - exists (camera (this (update c1))), (target (this (update c1))).
    rewrite (frame_this _ _ F2), update_this, (frame_this _ _ F1). reflexivity.
Qed.

Lemma run_this (inputs : list Input) (c : Controller) :
  exists cam tg, this (run inputs c) = set_camera_target cam tg (this c).
Proof.
  revert c. induction inputs as [ | i inputs IH]; intros c; simpl.
  - exists (camera (this c)), (target (this c)). destruct (this c); reflexivity.
  - destruct (IH (state_of (deliver i c))) as (cam & tg & E).
    destruct (step_this _ _ (shape_deliver i c)) as (cam1 & tg1 & E1).
    exists cam, tg. rewrite E, E1. reflexivity.
Qed.

(** The registry of a controller never holds a pointer twice. *)
Lemma update_pointers (c : Controller) :
  pointers (vars (update c)) = pointers (vars c).
Proof. rewrite update_vars. reflexivity. Qed.

Lemma run_NoDup (inputs : list Input) (c : Controller) :
  NoDup (pointers (vars c)) -> NoDup (pointers (vars (run inputs c))).
Proof.
  revert c. induction inputs as [ | i inputs IH]; intros c N; simpl.
  - exact N.
  - apply IH. destruct (shape_deliver i c) as [F | (c1 & F1 & F2)].
    + exact (frame_NoDup _ _ F N).
    + apply (frame_NoDup _ _ F2). rewrite update_pointers.
      exact (frame_NoDup _ _ F1 N).
Qed.

Lemma constructed_registry_NoDup
  (cam : Camera) (el : Element) (inputs : list Input) :
  NoDup (pointers (vars (run inputs (new_OrbitControls cam el)))).
Proof.
  apply run_NoDup. unfold new_OrbitControls. rewrite update_pointers.
  simpl. constructor.
Qed.

(** ** C1: the change notification of a second [update] *)

(** C1 (evaluation of the code).  [update] compares the new pose with
    [lastPosition], [lastQuaternion] and [lastTargetPosition], which it
    creates afresh at each call; the new target is at least
    [MIN_TARGET_HEIGHT] away from the fresh zero vector, so every call
    dispatches a change notification.  In particular a second call with no
    input in between dispatches one more: for every controller state the
    notifications after two calls are those after one call with a further
    [_changeEvent] in front. *)
Theorem update_twice_dispatches_change_again (c : Controller) :
  dispatched c (update c) [_changeEvent] /\
  dispatched (update c) (update (update c)) [_changeEvent].
Proof.
  unfold dispatched. split; simpl; apply update_events.
Qed.

(** ** C2: the camera distance stays in its interval *)

Lemma distance_update (c : Controller) :
  distance_cfg (this c) -> 0 <= scale (vars c) ->
  distance_ok (this (update c)) (spherical (vars (update c))).
Proof.
  intros (Hmm & H0) Hs. unfold distance_ok.
  change (Vector3.distanceTo (position (camera (this (update c))))
            (target (this (update c)))) with (getDistance (update c)).
  rewrite getDistance_update, update_spherical, update_this.
  cbn [Spherical.radius minDistance maxDistance set_camera_target].
  unfold clampDistance.
  assert (Hx : 0 <= Spherical.radius (incoming c) * scale (vars c)).
  { apply Rmult_le_pos; [apply incoming_radius_nonneg | exact Hs]. }
  rewrite Rabs_pos_eq by (apply clamp_ext_nonneg; assumption).
  split; [apply clamp_ext_lower | apply clamp_ext_upper; assumption].
Qed.




(** ** C4: the target stays above the ground *)


(** ** C3: the polar angle stays in its interval and off the poles *)

Lemma polar_update (c : Controller) :
  polar_cfg (this c) ->
  polar_ok (this (update c)) (spherical (vars (update c))).
Proof.
  intros (H1 & H2 & H3). unfold polar_ok.
  rewrite update_this, update_spherical.
  cbn [Spherical.phi minPolarAngle maxPolarAngle set_camera_target].
  set (p := Rmax (minPolarAngle (this c))
              (Rmin (maxPolarAngle (this c)) (Spherical.phi (incoming c)))).
  assert (Hp : minPolarAngle (this c) <= p <= maxPolarAngle (this c)).
  { unfold p. split; [apply Rmax_l | ].
    apply Rmax_lub; [assumption | apply Rmin_l]. }
  rewrite (Rmin_right (PI - Spherical.EPS) p) by lra.
  rewrite (Rmax_right Spherical.EPS p) by lra.
  exact Hp.
Qed.

(** The safe zone: after [update] the polar angle lies in
    [EPS, PI - EPS] whatever the configuration. *)
Lemma polar_safe_zone (c : Controller) :
  Spherical.EPS <= getPolarAngle (update c) <= PI - Spherical.EPS.
Proof.
  unfold getPolarAngle. rewrite update_spherical. cbn [Spherical.phi].
  pose proof EPS_lt_PI. split; [apply Rmax_l | ].
  apply Rmax_lub; [lra | apply Rmin_l].
Qed.

(** The safe zone holds along every run. *)
Lemma polar_safe_zone_run (c : Controller) (inputs : list Input) :
  Spherical.EPS <= getPolarAngle (run inputs (update c)) <= PI - Spherical.EPS.
Proof.
  assert (H : holds no_cfg
                (fun _ s => Spherical.EPS <= Spherical.phi s <= PI - Spherical.EPS)
                (run inputs (update c))).
  { apply holds_run.
    - intros; exact I.
    - intros c1 _ _. apply polar_safe_zone.
    - unfold holds. rewrite update_scale.
      repeat split; try lra; apply polar_safe_zone. }
  apply H.
Qed.




(** ** C5: an azimuth interval that wraps across 180 degrees *)

(** C5 (amended).  With [minAzimuthAngle] = 170 degrees and
    [maxAzimuthAngle] = -170 degrees, an azimuthal angle of 180 degrees
    entering the clamp lies above the midpoint (min + max) / 2 = 0, so the
    rule selects [Math.max(min, theta)], which leaves it at 180 degrees:
    inside the wrapped interval, at neither bound.  [update] returns with
    that angle; the configuration is not rejected. *)
Theorem azimuth_wrapped_keeps_180 (c : Controller) :
  minAzimuthAngle (this c) = Fin (170 * PI / 180) ->
  maxAzimuthAngle (this c) = Fin (- 170 * PI / 180) ->
  Spherical.theta (incoming c) = PI ->
  (170 * PI / 180 + - 170 * PI / 180) / 2 < PI /\
  getAzimuthalAngle (update c) = Rmax (170 * PI / 180) PI /\
  getAzimuthalAngle (update c) = PI.
Proof.
  intros Hmin Hmax Hth. pose proof PI_RGT_0 as Hpi.
  assert (E : getAzimuthalAngle (update c) = Rmax (170 * PI / 180) PI).
  { unfold getAzimuthalAngle. rewrite update_spherical. cbn [Spherical.theta].
    unfold restrictTheta. rewrite Hmin, Hmax, Hth. cbv zeta. unfold TWO_PI.
    destruct (Rlt_dec (170 * PI / 180) (- PI)); [lra | ].
    destruct (Rlt_dec PI (170 * PI / 180)); [lra | ].
    destruct (Rlt_dec (- 170 * PI / 180) (- PI)); [lra | ].
    destruct (Rlt_dec PI (- 170 * PI / 180)); [lra | ].
    destruct (Rle_dec (170 * PI / 180) (- 170 * PI / 180)); [lra | ].
    destruct (Rlt_dec ((170 * PI / 180 + - 170 * PI / 180) / 2) PI); [ | lra].
    reflexivity. }
  split; [lra | ]. split; [exact E | ].
  rewrite E. apply Rmax_right. lra.
Qed.

Lemma setFromUnitVectors_upright :
  setFromUnitVectors (Vector3.mk 0 1 0) (Vector3.mk 0 1 0) = Quaternion.identity.
Proof.
  unfold setFromUnitVectors, Vector3.dot. cbn [Vector3.x Vector3.y Vector3.z].
  destruct (Rlt_dec (0 * 0 + 1 * 1 + 0 * 0 + 1) Number_EPSILON) as [L | _].
  - exfalso. unfold Number_EPSILON in L.
    assert (P : 0 < 2 ^ 52) by (apply pow_lt; lra).
    assert (Q : 1 <= 2 ^ 52) by (apply pow_R1_Rle; lra).
    assert (I : / 2 ^ 52 <= 1).
    { rewrite <- Rinv_1. apply Rinv_le_contravar; lra. }
    lra.
  - unfold Quaternion.normalize, Quaternion.length.
    cbn [Quaternion.x Quaternion.y Quaternion.z Quaternion.w].
    assert (S : sqrt ((1 * 0 - 0 * 1) * (1 * 0 - 0 * 1)
                      + (0 * 0 - 0 * 0) * (0 * 0 - 0 * 0)
                      + (0 * 1 - 1 * 0) * (0 * 1 - 1 * 0)
                      + (0 * 0 + 1 * 1 + 0 * 0 + 1) * (0 * 0 + 1 * 1 + 0 * 0 + 1))
                = 2).
    { apply sqrt_lem_1; lra. }
    rewrite S. destruct (Req_dec_T 2 0); [lra | ].
    unfold Quaternion.identity. cbv zeta. f_equal; lra.
Qed.

Lemma applyQuaternion_identity (v : Vector3.t) :
  Vector3.applyQuaternion v Quaternion.identity = v.
Proof.
  destruct v as [a b d]. unfold Vector3.applyQuaternion, Quaternion.identity.
  simpl. f_equal; ring.
Qed.

Lemma incoming_facing_back : Spherical.theta (incoming facing_back) = PI.
Proof.
  unfold incoming, orbitOffset.
  cbn [facing_back wrapped_azimuth constructed with_this this vars camera up
       position target upright_camera set_azimuthAngles sphericalDelta].
  rewrite setFromUnitVectors_upright, applyQuaternion_identity.
  unfold Spherical.setFromVector3, Spherical.setFromCartesianCoords, Vector3.sub,
    Vector3.zero, Spherical.initial.
  cbn [Vector3.x Vector3.y Vector3.z]. cbv zeta.
  assert (S : sqrt ((0 - 0) * (0 - 0) + (0 - 0) * (0 - 0) + (-5 - 0) * (-5 - 0)) = 5)
    by (apply sqrt_lem_1; lra).
  rewrite S. destruct (Req_dec_T 5 0); [lra | ].
  cbn [Spherical.theta]. unfold atan2.
  destruct (Rlt_dec 0 (-5 - 0)); [lra | ].
  destruct (Rlt_dec (-5 - 0) 0); [ | lra].
  destruct (Rle_dec 0 (0 - 0)); [ | lra].
  replace ((0 - 0) / (-5 - 0)) with 0 by (field; lra).
  rewrite atan_0. ring.
Qed.

Lemma azimuth_wrapped_keeps_180_witness :
  minAzimuthAngle (this facing_back) = Fin (170 * PI / 180) /\
  maxAzimuthAngle (this facing_back) = Fin (- 170 * PI / 180) /\
  Spherical.theta (incoming facing_back) = PI /\
  (170 * PI / 180 + - 170 * PI / 180) / 2 < PI /\
  getAzimuthalAngle (update facing_back) = Rmax (170 * PI / 180) PI /\
  getAzimuthalAngle (update facing_back) = PI.
Proof.
  split; [reflexivity | ]. split; [reflexivity | ].
  split; [exact incoming_facing_back | ].
  exact (azimuth_wrapped_keeps_180 facing_back eq_refl eq_refl incoming_facing_back).
Defined.

(** C5 as stated fails where it says the angle resolves to a bound: the
    camera straight behind the target enters [update] with theta = 180
    degrees and leaves it with theta = 180 degrees, which is neither the
    170 degree bound nor the -170 degree bound. *)
Lemma azimuth_not_a_bound_counterexample :
  minAzimuthAngle (this facing_back) = Fin (170 * PI / 180) /\
  maxAzimuthAngle (this facing_back) = Fin (- 170 * PI / 180) /\
  Spherical.theta (incoming facing_back) = PI /\
  getAzimuthalAngle (update facing_back) <> 170 * PI / 180 /\
  getAzimuthalAngle (update facing_back) <> - 170 * PI / 180.
Proof.
  split; [reflexivity | ]. split; [reflexivity | ].
  split; [exact incoming_facing_back | ].
  assert (E : getAzimuthalAngle (update facing_back) = PI).
  { unfold getAzimuthalAngle. rewrite update_spherical. cbn [Spherical.theta].
    rewrite incoming_facing_back. unfold restrictTheta.
    cbn [facing_back wrapped_azimuth with_this this set_azimuthAngles
         minAzimuthAngle maxAzimuthAngle].
    cbv zeta. unfold TWO_PI. pose proof PI_RGT_0.
    destruct (Rlt_dec (170 * PI / 180) (- PI)); [lra | ].
    destruct (Rlt_dec PI (170 * PI / 180)); [lra | ].
    destruct (Rlt_dec (- 170 * PI / 180) (- PI)); [lra | ].
    destruct (Rlt_dec PI (- 170 * PI / 180)); [lra | ].
    destruct (Rle_dec (170 * PI / 180) (- 170 * PI / 180)); [lra | ].
    destruct (Rlt_dec ((170 * PI / 180 + - 170 * PI / 180) / 2) PI); [ | lra].
    apply Rmax_right. lra. }
  rewrite E. pose proof PI_RGT_0. split; lra.
Qed.

(** ** C6: what a rotate move adds to the pending azimuthal delta *)

Lemma accumulateMouseMoveRotate_theta (event : PointerEvent) (c : Controller) :
  pendingTheta (accumulateMouseMoveRotate event c)
  = pendingTheta c
    - 2 * PI * (clientX event - Vector2.x (rotateStart (vars c)))
      * rotateSpeed (this c) / clientHeight (domElement (this c)).
Proof.
  unfold pendingTheta, accumulateMouseMoveRotate, rotateUp, rotateLeft, TWO_PI.
  simpl. unfold Rdiv. ring.
Qed.

(** C6 (amended).  A mouse rotate move whose horizontal distance from the
    last rotate position is dx, on a viewport of [clientHeight] h with
    rotate speed r, takes exactly 2 PI dx r / h off the pending azimuthal
    delta ([rotateLeft] subtracts; the divisor is the height, not the
    width) before [update] runs. *)
Theorem rotate_move_pending_azimuth (event : PointerEvent) (c : Controller) :
  let dx := clientX event - Vector2.x (rotateStart (vars c)) in
  let h := clientHeight (domElement (this c)) in
  let r := rotateSpeed (this c) in
  pendingTheta (accumulateMouseMoveRotate event c)
  = pendingTheta c - 2 * PI * dx * r / h /\
  handleMouseMoveRotate event c = update (accumulateMouseMoveRotate event c).
Proof.
  cbv zeta. split; [apply accumulateMouseMoveRotate_theta | reflexivity].
Qed.

(** The same holds for a one-finger touch rotate move, with page
    coordinates. *)
Lemma touch_rotate_move_pending_azimuth (event : PointerEvent) (c c1 : Controller) :
  pointers (vars c) = [pointerId event] ->
  handleTouchMoveRotate event c = Returned c1 ->
  pendingTheta c1
  = pendingTheta c
    - 2 * PI * (pageX event - Vector2.x (rotateStart (vars c)))
      * rotateSpeed (this c) / clientHeight (domElement (this c)).
Proof.
  intros Hp. unfold handleTouchMoveRotate, touchAnchor. rewrite Hp.
  cbn [List.length Nat.eqb]. intros E. injection E as <-.
  unfold pendingTheta, rotateUp, rotateLeft, TWO_PI. simpl. unfold Rdiv. ring.
Qed.

(** C6 as stated fails on the sign: after a press at x = 100, a move to
    x = 150 (dx = 50) on a viewport 500 pixels high with rotate speed 1
    leaves the pending azimuthal delta at -0.2 PI, not at +0.2 PI. *)
Lemma rotate_move_sign_counterexample :
  clientX (mouse_at 150 100 0%Z false) - Vector2.x (rotateStart (vars pressed)) = 50 /\
  clientHeight (domElement (this pressed)) = 500 /\
  rotateSpeed (this pressed) = 1 /\
  pendingTheta pressed = 0 /\
  pendingTheta (accumulateMouseMoveRotate (mouse_at 150 100 0%Z false) pressed)
  = - (0.2 * PI) /\
  pendingTheta (accumulateMouseMoveRotate (mouse_at 150 100 0%Z false) pressed)
  <> pendingTheta pressed + 2 * PI * 50 * 1 / 500.
Proof.
  assert (V : vars pressed
              = set_state STATE.ROTATE
                  (set_rotateStart (Vector2.mk 100 100)
                     (set_pointers [1%Z] (vars (update demo))))).
  { assert (P0 : pointers (vars (update demo)) = [])
      by (rewrite update_vars; reflexivity).
    unfold pressed. cbn [deliver]. unfold onPointerDown.
    generalize dependent (update demo). intros u P0.
    rewrite P0. simpl. unfold isTrackingPointer. simpl. rewrite P0. simpl.
    unfold onMouseDown, startIfActive, set_state_of, handleMouseDownRotate,
      addPointer, set_state, set_rotateStart, set_pointers.
    simpl. rewrite P0. reflexivity. }
  assert (T : this pressed = this (update demo)).
  { apply frame_this. apply frame_onPointerDown. }
  assert (S : rotateStart (vars pressed) = Vector2.mk 100 100)
    by (rewrite V; reflexivity).
  assert (P : pendingTheta pressed = 0).
  { unfold pendingTheta. rewrite V.
    cbn [sphericalDelta set_state set_rotateStart set_pointers].
    rewrite update_sphericalDelta. reflexivity. }
  assert (H : clientHeight (domElement (this pressed)) = 500).
  { rewrite T, update_this. reflexivity. }
  assert (R1 : rotateSpeed (this pressed) = 1).
  { rewrite T, update_this. simpl. lra. }
  pose proof (accumulateMouseMoveRotate_theta (mouse_at 150 100 0%Z false) pressed)
    as E.
  rewrite S, H, R1, P in E. cbn [clientX mouse_at Vector2.x] in E.
  rewrite S. cbn [clientX mouse_at Vector2.x].
  split; [lra | ]. split; [exact H | ]. split; [exact R1 | ].
  split; [exact P | ]. pose proof PI_RGT_0.
  split; [rewrite E; lra | rewrite E, P; lra].
Qed.

(** ** C7: the wheel *)

Lemma Math_pow_positive_base (b e : R) : 0 < b -> Math_pow b e = Rpower b e.
Proof.
  intros Hb. unfold Math_pow.
  destruct (Req_dec_T e 0) as [E | _].
  - rewrite E. symmetry. apply Rpower_O. exact Hb.
  - destruct (Req_dec_T b 0); [lra | reflexivity].
Qed.

Lemma getZoomScale_power (o : OrbitControls) (delta : R) :
  getZoomScale o delta = Rpower 0.95 (zoomSpeed o * Rabs delta / 100).
Proof.
  unfold getZoomScale. rewrite Math_pow_positive_base by lra. f_equal.
  rewrite Rabs_mult, (Rabs_pos_eq 0.01) by lra. lra.
Qed.

(** C7.  A wheel event received while a gesture is active (state other
    than NONE) changes nothing.  Received in state NONE, it is scaled by 16
    in line mode and by 100 in page mode, and by a further 10 when the
    control key marks a pinch; with d the scaled delta and
    f = 0.95 ^ (zoomSpeed |d| / 100), the pending scale that [update] then
    consumes is the old one times f for a negative [deltaY] (dolly in),
    divided by f for a positive one (dolly out), and unchanged for zero;
    the event is bracketed by a start and an end notification. *)
Theorem wheel_zoom (event : WheelEvent) (c : Controller) :
  controlActive (vars c) = false ->
  let modeScale :=
    if Z.eqb (deltaMode event) 1 then 16
    else if Z.eqb (deltaMode event) 2 then 100 else 1 in
  let pinchScale := if wheel_ctrlKey event then 10 else 1 in
  let d := deltaY event * modeScale * pinchScale in
  let f := Rpower 0.95 (zoomSpeed (this c) * Rabs d / 100) in
  let c1 :=
    accumulateMouseWheel (normalizedDelta event c)
      (dispatchEvent _startEvent (domCall preventDefault c)) in
  (state (vars c) <> STATE.NONE -> onMouseWheel event c = c) /\
  (state (vars c) = STATE.NONE ->
   onMouseWheel event c = dispatchEvent _endEvent (update c1) /\
   normalizedDelta event c = d /\
   (deltaY event < 0 -> scale (vars c1) = scale (vars c) * f) /\
   (0 < deltaY event -> scale (vars c1) = scale (vars c) / f) /\
   (deltaY event = 0 -> scale (vars c1) = scale (vars c)) /\
   Spherical.radius (spherical (vars (onMouseWheel event c)))
   = clampDistance (this c) (Spherical.radius (incoming c) * scale (vars c1))).
Proof.
  intros Hca. cbv zeta.
  assert (Hd : normalizedDelta event c
               = deltaY event
                 * (if Z.eqb (deltaMode event) 1 then 16
                    else if Z.eqb (deltaMode event) 2 then 100 else 1)
                 * (if wheel_ctrlKey event then 10 else 1)).
  { unfold normalizedDelta. rewrite Hca. cbv zeta.
    destruct (Z.eqb (deltaMode event) 1);
      [ | destruct (Z.eqb (deltaMode event) 2)];
      destruct (wheel_ctrlKey event); simpl; ring. }
  assert (Hsign : forall x, 0 < x ->
            0 < x * (if Z.eqb (deltaMode event) 1 then 16
                     else if Z.eqb (deltaMode event) 2 then 100 else 1)
                * (if wheel_ctrlKey event then 10 else 1)).
  { intros x Hx.
    destruct (Z.eqb (deltaMode event) 1);
      [ | destruct (Z.eqb (deltaMode event) 2)];
      destruct (wheel_ctrlKey event); lra. }
  split.
  - intros Hs. unfold onMouseWheel.
    destruct (state (vars c)); try reflexivity. contradiction.
  - intros Hs.
    assert (E : onMouseWheel event c
                = dispatchEvent _endEvent
                    (update
                       (accumulateMouseWheel (normalizedDelta event c)
                          (dispatchEvent _startEvent
                             (domCall preventDefault c))))).
    { unfold onMouseWheel. rewrite Hs. reflexivity. }
    split; [exact E | ]. split; [exact Hd | ].
    rewrite <- Hd.
    rewrite <- (getZoomScale_power (this c) (normalizedDelta event c)).
    unfold accumulateMouseWheel.
    repeat split.
    + intros Hneg.
      assert (normalizedDelta event c < 0).
      { rewrite Hd. pose proof (Hsign (- deltaY event) ltac:(lra)). lra. }
      destruct (Rlt_dec (normalizedDelta event c) 0); [reflexivity | lra].
    + intros Hpos.
      assert (0 < normalizedDelta event c).
      { rewrite Hd. apply Hsign. exact Hpos. }
      destruct (Rlt_dec (normalizedDelta event c) 0); [lra | ].
      destruct (Rlt_dec 0 (normalizedDelta event c)); [reflexivity | lra].
    + intros Hz.
      assert (normalizedDelta event c = 0).
      { rewrite Hd, Hz. ring. }
      destruct (Rlt_dec (normalizedDelta event c) 0); [lra | ].
      destruct (Rlt_dec 0 (normalizedDelta event c)); [lra | reflexivity].
    + rewrite E.
      change (vars (dispatchEvent _endEvent ?x)) with (vars x).
      rewrite update_spherical. cbn [Spherical.radius].
      unfold accumulateMouseWheel.
      destruct (Rlt_dec (normalizedDelta event c) 0);
        [reflexivity | destruct (Rlt_dec 0 (normalizedDelta event c))];
        reflexivity.
Qed.

Lemma wheel_zoom_witness :
  controlActive (vars (update demo)) = false /\
  state (vars (update demo)) = STATE.NONE /\
  0 < deltaY one_notch /\
  scale (vars (accumulateMouseWheel (normalizedDelta one_notch (update demo))
                 (dispatchEvent _startEvent
                    (domCall preventDefault (update demo)))))
  = scale (vars (update demo))
    / Rpower 0.95 (zoomSpeed (this (update demo)) * Rabs (100 * 1 * 1) / 100).
Proof.
  assert (A : controlActive (vars (update demo)) = false)
    by (rewrite update_vars; reflexivity).
  assert (B : state (vars (update demo)) = STATE.NONE)
    by (rewrite update_state; reflexivity).
  assert (C : 0 < deltaY one_notch) by (simpl; lra).
  split; [exact A | ]. split; [exact B | ]. split; [exact C | ].
  exact (proj1 (proj2 (proj2 (proj2
           (proj2 (wheel_zoom one_notch (update demo) A) B)))) C).
Defined.

(** ** C8: the two-finger dolly *)

Lemma trackPointer_state (e : PointerEvent) (c : Controller) :
  state (vars (trackPointer e c)) = state (vars c).
Proof. reflexivity. Qed.

(** C8.  In state TOUCH_DOLLY_PAN, a touch move whose contact is at
    separation s1 from the second pointer, when the separation recorded
    at the previous step is s0 (both positive), divides the pending scale
    once by (s1 / s0) ^ zoomSpeed ([dollyOut]), records s1 as the new
    reference separation, and calls [update], which consumes the pending
    scale in the radius and resets it to 1. *)
Theorem touch_dolly_scale
  (event : PointerEvent) (c : Controller) (position : Vector2.t) :
  state (vars c) = STATE.TOUCH_DOLLY_PAN ->
  getSecondPointerPosition event (trackPointer event c) = Some position ->
  let s0 := Vector2.y (dollyStart (vars c)) in
  let s1 :=
    sqrt ((pageX event - Vector2.x position) * (pageX event - Vector2.x position)
          + (pageY event - Vector2.y position) * (pageY event - Vector2.y position)) in
  0 < s0 -> 0 < s1 ->
  exists c1,
    onTouchMove event c = Returned (update c1) /\
    scale (vars c1) = scale (vars c) / Rpower (s1 / s0) (zoomSpeed (this c)) /\
    dollyStart (vars c1) = Vector2.mk 0 s1 /\
    Spherical.radius (spherical (vars (update c1)))
    = clampDistance (this c) (Spherical.radius (incoming c) * scale (vars c1)) /\
    scale (vars (update c1)) = 1.
Proof.
  intros Hs Hp. cbv zeta. intros H0 H1.
  unfold onTouchMove. cbv zeta. rewrite trackPointer_state, Hs.
  unfold handleTouchMoveDollyPan, handleTouchMoveDolly, touchDistance.
  rewrite Hp. cbv zeta. cbn [andThen].
  unfold handleTouchMovePan, touchAnchor.
  match goal with
  | |- context [getSecondPointerPosition event ?x] =>
      change (getSecondPointerPosition event x)
        with (getSecondPointerPosition event (trackPointer event c))
  end.
  rewrite Hp.
  match goal with
  | |- context [if ?b then _ else _] => destruct b
  end; cbv zeta; cbn [andThen lift];
    (eexists; split; [reflexivity | ];
     split;
     [ cbn [scale vars with_vars set_panStart set_panOffset set_panDelta
            set_panEnd set_dollyStart pan panUp panLeft dollyOut set_scale
            set_dollyDelta set_dollyEnd dollyDelta dollyEnd dollyStart
            trackPointer set_pointerPositions Vector2.y this zoomSpeed];
       rewrite Math_pow_positive_base
         by (apply Rdiv_lt_0_compat; assumption);
       reflexivity
     | split; [reflexivity | ];
       split; [rewrite update_spherical; reflexivity | apply update_scale] ]).
Qed.

Ltac run_handlers P0 Q0 :=
  repeat (progress
    (cbn [run deliver state_of andThen lift];
     unfold onPointerDown, onTouchStart, isTrackingPointer, addPointer,
       trackPointer, handleTouchStartRotate, handleTouchStartDollyPan,
       handleTouchStartDolly, handleTouchStartPan, touchAnchor, touchDistance,
       getSecondPointerPosition, startIfActive, set_state_of;
     cbn;
     try rewrite P0; try rewrite Q0; cbn)).

Lemma pinching_vars :
  vars pinching
  = set_state STATE.TOUCH_DOLLY_PAN
      (set_panStart (Vector2.mk (0.5 * (200 + 100)) (0.5 * (100 + 100)))
         (set_dollyStart
            (Vector2.mk 0
               (sqrt ((200 - 100) * (200 - 100) + (100 - 100) * (100 - 100))))
            (set_rotateStart (Vector2.mk 100 100)
               (set_pointerPositions
                  [(1%Z, Vector2.mk 100 100); (2%Z, Vector2.mk 200 100)]
                  (set_pointers [1%Z; 2%Z] (vars (update demo))))))).
Proof.
  assert (P0 : pointers (vars (update demo)) = [])
    by (rewrite update_vars; reflexivity).
  assert (Q0 : pointerPositions (vars (update demo)) = [])
    by (rewrite update_vars; reflexivity).
  unfold pinching. generalize dependent (update demo). intros u P0 Q0.
  run_handlers P0 Q0. reflexivity.
Qed.

Lemma touch_dolly_scale_witness :
  state (vars pinching) = STATE.TOUCH_DOLLY_PAN /\
  getSecondPointerPosition spread (trackPointer spread pinching)
  = Some (Vector2.mk 100 100) /\
  Vector2.y (dollyStart (vars pinching)) = 100 /\
  sqrt ((pageX spread - 100) * (pageX spread - 100)
        + (pageY spread - 100) * (pageY spread - 100)) = 150 /\
  exists c1,
    onTouchMove spread pinching = Returned (update c1) /\
    scale (vars c1)
    = scale (vars pinching) / Rpower (150 / 100) (zoomSpeed (this pinching)).
Proof.
  assert (A : state (vars pinching) = STATE.TOUCH_DOLLY_PAN)
    by (rewrite pinching_vars; reflexivity).
  assert (B : getSecondPointerPosition spread (trackPointer spread pinching)
              = Some (Vector2.mk 100 100)).
  { unfold getSecondPointerPosition, trackPointer.
    cbn [vars with_vars set_pointerPositions pointers pointerPositions].
    rewrite pinching_vars. reflexivity. }
  assert (S0 : Vector2.y (dollyStart (vars pinching)) = 100).
  { rewrite pinching_vars. cbn [dollyStart set_state set_panStart set_dollyStart
      Vector2.y]. apply sqrt_lem_1; lra. }
  assert (S1 : sqrt ((pageX spread - 100) * (pageX spread - 100)
                     + (pageY spread - 100) * (pageY spread - 100)) = 150).
  { cbn [pageX pageY spread touch_at]. apply sqrt_lem_1; lra. }
  split; [exact A | ]. split; [exact B | ]. split; [exact S0 | ].
  split; [exact S1 | ].
  assert (H0 : 0 < Vector2.y (dollyStart (vars pinching))) by (rewrite S0; lra).
  assert (H1 : 0 < sqrt ((pageX spread - Vector2.x (Vector2.mk 100 100))
                         * (pageX spread - Vector2.x (Vector2.mk 100 100))
                         + (pageY spread - Vector2.y (Vector2.mk 100 100))
                           * (pageY spread - Vector2.y (Vector2.mk 100 100))))
    by (cbn [Vector2.x Vector2.y]; rewrite S1; lra).
  destruct (touch_dolly_scale spread pinching (Vector2.mk 100 100) A B H0 H1)
    as (c1 & E & Sc & _).
  exists c1. split; [exact E | ].
  cbn [Vector2.x Vector2.y] in Sc. rewrite S1, S0 in Sc. exact Sc.
Defined.

(** ** C9: pointer-up *)

Lemma spliceFirst_not_In (id : Z) (l : list Z) :
  NoDup l -> ~ In id (spliceFirst id l).
Proof.
  induction l as [ | p l IH]; simpl; intros N.
  - intros [].
  - inversion N as [ | ? ? Hp Hl]; subst.
    destruct (Z.eqb_spec p id) as [-> | Ne]; [exact Hp | ].
    simpl. intros [E | I]; [congruence | exact (IH Hl I)].
Qed.

Lemma spliceFirst_In_other (id p : Z) (l : list Z) :
  p <> id -> (In p (spliceFirst id l) <-> In p l).
Proof.
  intros Ne. induction l as [ | q l IH]; simpl; [tauto | ].
  destruct (Z.eqb_spec q id) as [-> | Nq]; simpl.
  - split; [tauto | ]. intros [E | I]; [congruence | exact I].
  - tauto.
Qed.

Lemma deletePosition_lookup_same (id : Z) (m : list (Z * Vector2.t)) :
  lookupPosition id (deletePosition id m) = None.
Proof.
  induction m as [ | [k q] m IH]; simpl; [reflexivity | ].
  destruct (Z.eqb k id) eqn:E; [exact IH | ]. simpl. rewrite E. exact IH.
Qed.

Lemma deletePosition_lookup_other (id p : Z) (m : list (Z * Vector2.t)) :
  p <> id -> lookupPosition p (deletePosition id m) = lookupPosition p m.
Proof.
  intros Ne. induction m as [ | [k q] m IH]; simpl; [reflexivity | ].
  destruct (Z.eqb_spec k id) as [-> | Nk]; simpl.
  - destruct (Z.eqb_spec id p); [congruence | exact IH].
  - destruct (Z.eqb k p); [reflexivity | exact IH].
Qed.

Lemma storePosition_lookup_same (id : Z) (p : Vector2.t) (m : list (Z * Vector2.t)) :
  lookupPosition id (storePosition id p m) = Some p.
Proof.
  induction m as [ | [k q] m IH]; simpl.
  - rewrite Z.eqb_refl. reflexivity.
  - destruct (Z.eqb k id) eqn:E; simpl; rewrite E; [reflexivity | exact IH].
Qed.


(** When the one remaining pointer has no recorded position (a mouse or
    pen pointer, which [trackPointer] never sees) the handler throws. *)
Lemma pointer_up_untracked_throws (event : PointerEvent) (c : Controller) (p : Z) :
  pointers (vars (removePointer event c)) = [p] ->
  lookupPosition p (pointerPositions (vars (removePointer event c))) = None ->
  onPointerUp event c = Thrown (removePointer event c).
Proof.
  intros E L. unfold onPointerUp. cbv zeta. rewrite E, L. reflexivity.
Qed.


(** ** C10: no handler reads [enableDamping] *)

Lemma restrictTheta_damping (b : bool) (o : OrbitControls) (theta : R) :
  restrictTheta (set_enableDamping b o) theta = restrictTheta o theta.
Proof. reflexivity. Qed.

Lemma clampDistance_damping (b : bool) (o : OrbitControls) (dist : R) :
  clampDistance (set_enableDamping b o) dist = clampDistance o dist.
Proof. reflexivity. Qed.

Lemma moveTarget_damping (b : bool) (o : OrbitControls) (p : Vector3.t) :
  moveTarget (set_enableDamping b o) p = moveTarget o p.
Proof. reflexivity. Qed.

Lemma getZoomScale_damping (b : bool) (o : OrbitControls) (delta : R) :
  getZoomScale (set_enableDamping b o) delta = getZoomScale o delta.
Proof. reflexivity. Qed.

Ltac damping_normalize :=
  cbn [damping with_this set_enableDamping this vars events dom listening
       camera domElement target cursor minDistance maxDistance minTargetRadius
       maxTargetRadius minPolarAngle maxPolarAngle minAzimuthAngle
       maxAzimuthAngle zoomSpeed rotateSpeed panSpeed keyPanSpeed];
  repeat rewrite restrictTheta_damping;
  repeat rewrite clampDistance_damping;
  repeat rewrite moveTarget_damping;
  repeat rewrite getZoomScale_damping.

Lemma update_damping (b : bool) (c : Controller) :
  update (damping b c) = damping b (update c).
Proof.
  unfold update. cbv zeta. damping_normalize.
  match goal with
  | |- (if ?x then _ else _) = _ => destruct x
  end; reflexivity.
Qed.

Ltac damping_cases :=
  simpl;
  repeat match goal with
         | |- context [if ?x then _ else _] => destruct x
         | |- context [match ?x with _ => _ end] => destruct x
         end;
  reflexivity.

Lemma accumulateMouseMoveRotate_damping b e c :
  accumulateMouseMoveRotate e (damping b c)
  = damping b (accumulateMouseMoveRotate e c).
Proof. reflexivity. Qed.

Lemma accumulateMouseMovePan_damping b e c :
  accumulateMouseMovePan e (damping b c)
  = damping b (accumulateMouseMovePan e c).
Proof. reflexivity. Qed.

Lemma accumulateMouseMoveDolly_damping b e c :
  accumulateMouseMoveDolly e (damping b c)
  = damping b (accumulateMouseMoveDolly e c).
Proof. unfold accumulateMouseMoveDolly. cbv zeta. damping_cases. Qed.

Lemma accumulateMouseWheel_damping b d c :
  accumulateMouseWheel d (damping b c) = damping b (accumulateMouseWheel d c).
Proof. unfold accumulateMouseWheel. damping_cases. Qed.

Lemma handleKeyDown_damping b e c :
  handleKeyDown e (damping b c) = damping b (handleKeyDown e c).
Proof.
  unfold handleKeyDown, accumulateKeyDown. cbv zeta.
  repeat (destruct (String.eqb _ _)); try reflexivity;
    destruct (key_shiftKey e); rewrite <- update_damping; reflexivity.
Qed.

Lemma onMouseDown_damping b e c :
  onMouseDown e (damping b c) = damping b (onMouseDown e c).
Proof.
  unfold onMouseDown, startIfActive. cbv zeta.
  repeat match goal with
         | |- context [if Z.eqb ?x ?y then _ else _] => destruct (Z.eqb x y)
         end;
    try destruct (shiftKey e); reflexivity.
Qed.

Lemma onMouseMove_damping b e c :
  onMouseMove e (damping b c) = damping b (onMouseMove e c).
Proof.
  unfold onMouseMove. cbn [damping with_this vars].
  destruct (state (vars c)); try reflexivity.
  - unfold handleMouseMoveRotate.
    rewrite <- update_damping, <- accumulateMouseMoveRotate_damping. reflexivity.
  - unfold handleMouseMoveDolly.
    rewrite <- update_damping, <- accumulateMouseMoveDolly_damping. reflexivity.
  - unfold handleMouseMovePan.
    rewrite <- update_damping, <- accumulateMouseMovePan_damping. reflexivity.
Qed.

Lemma onMouseWheel_damping b e c :
  onMouseWheel e (damping b c) = damping b (onMouseWheel e c).
Proof.
  unfold onMouseWheel. cbn [damping with_this vars].
  destruct (negb _); [reflexivity | ]. cbv zeta. unfold handleMouseWheel.
  match goal with
  | |- _ = damping b (dispatchEvent _ (update ?x)) =>
      change (damping b (dispatchEvent _endEvent (update x)))
        with (dispatchEvent _endEvent (damping b (update x)));
      rewrite <- update_damping, <- accumulateMouseWheel_damping
  end.
  reflexivity.
Qed.

Lemma andThen_damping b r (k : Controller -> outcome) :
  (forall c, k (damping b c) = damping_outcome b (k c)) ->
  damping_outcome b r >>= k = damping_outcome b (r >>= k).
Proof. intros H. destruct r; simpl; [apply H | reflexivity]. Qed.

Lemma lift_damping b (f : Controller -> Controller) :
  (forall c, f (damping b c) = damping b (f c)) ->
  forall c, lift f (damping b c) = damping_outcome b (lift f c).
Proof. intros H c. unfold lift. simpl. rewrite H. reflexivity. Qed.

Lemma handleTouchStartRotate_damping b e c :
  handleTouchStartRotate e (damping b c)
  = damping_outcome b (handleTouchStartRotate e c).
Proof.
  unfold handleTouchStartRotate.
  change (touchAnchor e (damping b c)) with (touchAnchor e c).
  destruct (touchAnchor e c); reflexivity.
Qed.

Lemma handleTouchStartPan_damping b e c :
  handleTouchStartPan e (damping b c)
  = damping_outcome b (handleTouchStartPan e c).
Proof.
  unfold handleTouchStartPan.
  change (touchAnchor e (damping b c)) with (touchAnchor e c).
  destruct (touchAnchor e c); reflexivity.
Qed.

Lemma handleTouchStartDolly_damping b e c :
  handleTouchStartDolly e (damping b c)
  = damping_outcome b (handleTouchStartDolly e c).
Proof.
  unfold handleTouchStartDolly.
  change (touchDistance e (damping b c)) with (touchDistance e c).
  destruct (touchDistance e c); reflexivity.
Qed.

Lemma handleTouchMoveRotate_damping b e c :
  handleTouchMoveRotate e (damping b c)
  = damping_outcome b (handleTouchMoveRotate e c).
Proof.
  unfold handleTouchMoveRotate.
  change (touchAnchor e (damping b c)) with (touchAnchor e c).
  destruct (touchAnchor e c); reflexivity.
Qed.

Lemma handleTouchMovePan_damping b e c :
  handleTouchMovePan e (damping b c)
  = damping_outcome b (handleTouchMovePan e c).
Proof.
  unfold handleTouchMovePan.
  change (touchAnchor e (damping b c)) with (touchAnchor e c).
  destruct (touchAnchor e c); reflexivity.
Qed.

Lemma handleTouchMoveDolly_damping b e c :
  handleTouchMoveDolly e (damping b c)
  = damping_outcome b (handleTouchMoveDolly e c).
Proof.
  unfold handleTouchMoveDolly.
  change (touchDistance e (damping b c)) with (touchDistance e c).
  destruct (touchDistance e c); reflexivity.
Qed.

Lemma set_state_of_damping s b c :
  set_state_of s (damping b c) = damping b (set_state_of s c).
Proof. reflexivity. Qed.

Lemma startIfActive_damping b c :
  startIfActive (damping b c) = damping b (startIfActive c).
Proof.
  unfold startIfActive. cbn [damping with_this vars].
  destruct (STATE.is_NONE _); reflexivity.
Qed.

Lemma onTouchStart_damping b e c :
  onTouchStart e (damping b c) = damping_outcome b (onTouchStart e c).
Proof.
  unfold onTouchStart. cbv zeta.
  change (trackPointer e (damping b c)) with (damping b (trackPointer e c)).
  generalize (trackPointer e c). intros c1.
  rewrite <- andThen_damping by (apply lift_damping, startIfActive_damping).
  f_equal. cbn [damping with_this vars].
  destruct (List.length _) as [ | [ | [ | n]]]; simpl Z.eqb; cbv iota;
    try reflexivity.
  - rewrite <- andThen_damping
      by (apply lift_damping; intros; apply set_state_of_damping).
    rewrite handleTouchStartRotate_damping. reflexivity.
  - rewrite <- andThen_damping
      by (apply lift_damping; intros; apply set_state_of_damping).
    f_equal. unfold handleTouchStartDollyPan.
    rewrite <- andThen_damping by (intros; apply handleTouchStartPan_damping).
    rewrite handleTouchStartDolly_damping. reflexivity.
Qed.

Lemma update_lift_damping b c :
  lift update (damping b c) = damping_outcome b (lift update c).
Proof. apply lift_damping. intros. apply update_damping. Qed.

Lemma onTouchMove_damping b e c :
  onTouchMove e (damping b c) = damping_outcome b (onTouchMove e c).
Proof.
  unfold onTouchMove. cbv zeta.
  change (trackPointer e (damping b c)) with (damping b (trackPointer e c)).
  generalize (trackPointer e c). intros c1.
  cbn [damping with_this vars].
  destruct (state (vars c1)); try reflexivity;
    rewrite <- andThen_damping by (intros; apply update_lift_damping); f_equal.
  - apply handleTouchMoveRotate_damping.
  - apply handleTouchMovePan_damping.
  - unfold handleTouchMoveDollyPan.
    rewrite <- andThen_damping by (intros; apply handleTouchMovePan_damping).
    rewrite handleTouchMoveDolly_damping. reflexivity.
  - unfold handleTouchMoveDollyRotate.
    rewrite <- andThen_damping by (intros; apply handleTouchMoveRotate_damping).
    rewrite handleTouchMoveDolly_damping. reflexivity.
Qed.

Lemma onPointerDown_damping b e c :
  onPointerDown e (damping b c) = damping_outcome b (onPointerDown e c).
Proof.
  unfold onPointerDown. cbv zeta. cbn [damping with_this vars].
  destruct (Nat.eqb _ _).
  - unfold isTrackingPointer. cbn [set_listening domCall vars].
    destruct (existsb _ _); [reflexivity | ].
    destruct (String.eqb _ _).
    + rewrite <- onTouchStart_damping. reflexivity.
    + simpl. rewrite <- onMouseDown_damping. reflexivity.
  - unfold isTrackingPointer. cbn [vars].
    destruct (existsb _ _); [reflexivity | ].
    destruct (String.eqb _ _).
    + rewrite <- onTouchStart_damping. reflexivity.
    + simpl. rewrite <- onMouseDown_damping. reflexivity.
Qed.

Lemma onPointerMove_damping b e c :
  onPointerMove e (damping b c) = damping_outcome b (onPointerMove e c).
Proof.
  unfold onPointerMove. destruct (String.eqb _ _).
  - apply onTouchMove_damping.
  - simpl. rewrite onMouseMove_damping. reflexivity.
Qed.

Lemma onPointerUp_damping b e c :
  onPointerUp e (damping b c) = damping_outcome b (onPointerUp e c).
Proof.
  unfold onPointerUp. cbv zeta.
  change (removePointer e (damping b c)) with (damping b (removePointer e c)).
  generalize (removePointer e c). intros c1. cbn [damping with_this vars].
  destruct (pointers (vars c1)) as [ | p [ | q l]]; try reflexivity.
  destruct (lookupPosition _ _); [ | reflexivity].
  apply onTouchStart_damping.
Qed.

Lemma deliver_damping b i c :
  deliver i (damping b c) = damping_outcome b (deliver i c).
Proof.
  destruct i as [e | e | e | e | e | e | ]; cbn [deliver].
  - apply onPointerDown_damping.
  - cbn [damping with_this listening].
    destruct (listening c); [apply onPointerMove_damping | reflexivity].
  - cbn [damping with_this listening].
    destruct (listening c); [apply onPointerUp_damping | reflexivity].
  - apply onPointerUp_damping.
  - rewrite onMouseWheel_damping. reflexivity.
  - unfold onKeyDown. rewrite handleKeyDown_damping. reflexivity.
  - reflexivity.
Qed.

Lemma run_damping b inputs c :
  run inputs (damping b c) = damping b (run inputs c).
Proof.
  revert c. induction inputs as [ | i inputs IH]; intros c; simpl.
  - reflexivity.
  - rewrite deliver_damping.
    destruct (deliver i c) as [c1 | c1]; simpl; apply IH.
Qed.

(** C10.  Assigning [enableDamping] changes nothing any operation does:
    [update], every input handler and every run commute with the
    assignment, so the camera pose, the target, the spherical state and
    the notifications they produce are the same whether the flag is set
    or not, and a handler throws with the flag exactly when it throws
    without it. *)
Theorem enableDamping_is_never_read (b : bool) (c : Controller) :
  update (damping b c) = damping b (update c) /\
  observable (update (damping b c)) = observable (update c) /\
  (forall i : Input,
     deliver i (damping b c) = damping_outcome b (deliver i c) /\
     observable (state_of (deliver i (damping b c)))
     = observable (state_of (deliver i c))) /\
  (forall inputs : list Input,
     run inputs (damping b c) = damping b (run inputs c) /\
     observable (run inputs (damping b c)) = observable (run inputs c)).
Proof.
  split; [apply update_damping | ].
  split; [rewrite update_damping; reflexivity | ].
  split.
  - intros i. split; [apply deliver_damping | ].
    rewrite deliver_damping. destruct (deliver i c); reflexivity.
  - intros inputs. split; [apply run_damping | ].
    rewrite run_damping. reflexivity.
Qed.

(** * Further properties of the controller *)

(** ** Spherical and cartesian coordinates *)

(** Rotating by the inverse of a unit quaternion and then by the
    quaternion gives the vector back. *)
Lemma applyQuaternion_invert (v : Vector3.t) (q : Quaternion.t) :
  unit_length q ->
  Vector3.applyQuaternion (Vector3.applyQuaternion v (Quaternion.invert q)) q
  = v.
Proof.
  unfold unit_length, Vector3.applyQuaternion, Quaternion.invert.
  destruct v as [vx vy vz], q as [qx qy qz qw]. simpl. intros H.
  f_equal; nsatz.
Qed.

Lemma sub_add_cancel (t o : Vector3.t) : Vector3.sub (Vector3.add t o) t = o.
Proof. destruct t, o. unfold Vector3.sub, Vector3.add. simpl. f_equal; ring. Qed.

(** After [update] the camera offset, seen in "y-axis-is-up" space, is
    the vector of the spherical state. *)
Lemma orbitOffset_update (c : Controller) :
  orbitOffset (update c) = setFromSpherical (spherical (vars (update c))).
Proof.
  unfold orbitOffset. rewrite update_up, update_position, sub_add_cancel.
  apply applyQuaternion_invert, setFromUnitVectors_unit.
Qed.

(** [Math.atan2] returns the angle of the point: for a point other than
    the origin, its distance from the origin times the sine and the cosine
    of the angle are its two coordinates. *)
Lemma atan2_polar (y x : R) :
  0 < y * y + x * x ->
  sqrt (y * y + x * x) * sin (atan2 y x) = y /\
  sqrt (y * y + x * x) * cos (atan2 y x) = x.
Proof.
  intros Hn. set (n := sqrt (y * y + x * x)).
  assert (Hnn : 0 < n) by (apply sqrt_lt_R0; exact Hn).
  set (S := sqrt (1 + (y / x)²)).
  assert (HS : 0 < S).
  { apply sqrt_lt_R0. unfold Rsqr. nra. }
  assert (HSS : S * S = 1 + (y / x) * (y / x)).
  { unfold S. rewrite sqrt_sqrt; [reflexivity | unfold Rsqr; nra]. }
  unfold atan2.
  destruct (Rlt_dec 0 x) as [Px | Nx].
  - assert (E : n = S * x).
    { apply sqrt_lem_1; [lra | nra | ].
      replace (S * x * (S * x)) with (S * S * (x * x)) by ring.
      rewrite HSS. field. lra. }
    rewrite sin_atan, cos_atan. fold S. rewrite E. split; field; lra.
  - destruct (Rlt_dec x 0) as [Lx | Zx].
    + assert (E : n = S * - x).
      { apply sqrt_lem_1; [lra | nra | ].
        replace (S * - x * (S * - x)) with (S * S * (x * x)) by ring.
        rewrite HSS. field. lra. }
      destruct (Rle_dec 0 y).
      * rewrite neg_sin, neg_cos, sin_atan, cos_atan. fold S. rewrite E.
        split; field; lra.
      * replace (atan (y / x) - PI) with (- (PI - atan (y / x))) by ring.
        rewrite sin_neg, cos_neg, sin_PI_x, Rtrigo_facts.cos_pi_minus.
        rewrite sin_atan, cos_atan. fold S. rewrite E. split; field; lra.
    + assert (x = 0) by lra. subst x.
      assert (E : n = Rabs y).
      { unfold n. replace (y * y + 0 * 0) with (y²) by (unfold Rsqr; ring).
        apply sqrt_Rsqr_abs. }
      destruct (Rlt_dec 0 y).
      * rewrite sin_PI2, cos_PI2, E, Rabs_pos_eq by lra. lra.
      * destruct (Rlt_dec y 0).
        -- rewrite sin_neg, cos_neg, sin_PI2, cos_PI2, E, Rabs_left by lra. lra.
        -- exfalso. assert (y = 0) by lra. subst y. lra.
Qed.

Lemma atan2_range (y x : R) : - PI < atan2 y x <= PI.
Proof.
  pose proof PI_RGT_0 as Hpi. unfold atan2.
  destruct (Rlt_dec 0 x).
  - pose proof (atan_bound (y / x)). lra.
  - destruct (Rlt_dec x 0) as [Lx | ].
    + pose proof (atan_bound (y / x)) as B.
      destruct (Rle_dec 0 y) as [Py | Ny].
      * assert (atan (y / x) <= 0).
        { destruct (Req_dec_T y 0) as [-> | Hy].
          - unfold Rdiv. rewrite Rmult_0_l, atan_0. lra.
          - rewrite <- atan_0. left. apply atan_increasing.
            apply Rmult_pos_neg; [lra | apply Rinv_lt_0_compat; lra]. }
        lra.
      * assert (0 < atan (y / x)).
        { rewrite <- atan_0. apply atan_increasing.
          apply Rmult_neg_neg; [lra | apply Rinv_lt_0_compat; lra]. }
        lra.
    + destruct (Rlt_dec 0 y); [lra | ]. destruct (Rlt_dec y 0); lra.
Qed.

(** Two angles of (-PI, PI] with the same sine and cosine are equal. *)
Lemma angle_unique (a b : R) :
  - PI < a <= PI -> - PI < b <= PI ->
  sin a = sin b -> cos a = cos b -> a = b.
Proof.
  intros Ha Hb Hs Hc. pose proof PI_RGT_0 as Hpi.
  assert (C : cos (a - b) = 1).
  { rewrite cos_minus, Hs, Hc. pose proof (sin2_cos2 b) as H.
    unfold Rsqr in H. lra. }
  assert (Z : sin ((a - b) / 2) = 0).
  { replace (a - b) with (2 * ((a - b) / 2)) in C by field.
    rewrite cos_2a_sin in C.
    assert (sin ((a - b) / 2) * sin ((a - b) / 2) = 0) by lra.
    destruct (Rmult_integral _ _ H); assumption. }
  destruct (Rle_dec 0 ((a - b) / 2)) as [P | N].
  - destruct (sin_eq_O_2PI_0 ((a - b) / 2) P ltac:(lra) Z) as [E | [E | E]]; lra.
  - assert (Z' : sin (- ((a - b) / 2)) = 0) by (rewrite sin_neg, Z; ring).
    destruct (sin_eq_O_2PI_0 (- ((a - b) / 2)) ltac:(lra) ltac:(lra) Z')
      as [E | [E | E]]; lra.
Qed.

(** [Spherical.setFromVector3] undoes [Vector3.setFromSpherical] for a
    positive radius and a polar angle off the poles, up to the
    normalisation of theta into (-PI, PI]. *)
Lemma setFromVector3_setFromSpherical (s : Spherical.t) :
  0 < Spherical.radius s ->
  0 < Spherical.phi s < PI ->
  let s' := Spherical.setFromVector3 (setFromSpherical s) in
  Spherical.radius s' = Spherical.radius s /\
  Spherical.phi s' = Spherical.phi s /\
  sin (Spherical.theta s') = sin (Spherical.theta s) /\
  cos (Spherical.theta s') = cos (Spherical.theta s) /\
  - PI < Spherical.theta s' <= PI.
Proof.
  destruct s as [r p t]. simpl. intros Hr Hp.
  unfold Spherical.setFromVector3, setFromSpherical,
    Vector3.setFromSphericalCoords, Spherical.setFromCartesianCoords.
  cbn [Vector3.x Vector3.y Vector3.z Spherical.radius Spherical.phi
       Spherical.theta]. cbv zeta.
  pose proof (sin2_cos2 p) as Sp. pose proof (sin2_cos2 t) as St.
  unfold Rsqr in Sp, St.
  assert (Hsp : 0 < sin p) by (apply sin_gt_0; lra).
  assert (E : sqrt (sin p * r * sin t * (sin p * r * sin t)
                    + cos p * r * (cos p * r)
                    + sin p * r * cos t * (sin p * r * cos t)) = r).
  { apply sqrt_lem_1; [nra | lra | ].
    transitivity (r * r * (sin p * sin p * (sin t * sin t + cos t * cos t)
                           + cos p * cos p)); [ | ring].
    rewrite St. replace (sin p * sin p * 1 + cos p * cos p)
      with (sin p * sin p + cos p * cos p) by ring.
    rewrite Sp. ring. }
  rewrite E. destruct (Req_dec_T r 0); [lra | ].
  cbn [Spherical.radius Spherical.phi Spherical.theta].
  split; [reflexivity | ]. split.
  - replace (cos p * r / r) with (cos p) by (field; lra).
    unfold Spherical.clamp. pose proof (COS_bound p) as B.
    rewrite Rmin_right by lra. rewrite Rmax_right by lra.
    apply acos_cos. lra.
  - set (k := sin p * r). assert (Hk : 0 < k) by (unfold k; nra).
    assert (N : sqrt (k * sin t * (k * sin t) + k * cos t * (k * cos t)) = k).
    { apply sqrt_lem_1; [nra | lra | ].
      transitivity (k * k * (sin t * sin t + cos t * cos t)); [ | ring].
      rewrite St. ring. }
    assert (P : 0 < k * sin t * (k * sin t) + k * cos t * (k * cos t)).
    { replace (k * sin t * (k * sin t) + k * cos t * (k * cos t))
        with (k * k * (sin t * sin t + cos t * cos t)) by ring.
      rewrite St. nra. }
    destruct (atan2_polar (k * sin t) (k * cos t) P) as (A1 & A2).
    rewrite N in A1, A2.
    split; [ | split; [ | apply atan2_range]].
    + apply Rmult_eq_reg_l with k; lra.
    + apply Rmult_eq_reg_l with k; lra.
Qed.

(** ** A second [update] leaves the pose where it is *)

Lemma update_camera (c : Controller) :
  camera (this (update c))
  = lookAt
      (set_position (position (camera (this (update c)))) (camera (this c)))
      (target (this (update c))).
Proof. update_if. Qed.

Lemma clamp_ext_idempotent (lo : R) (hi : ext) (v : R) :
  clamp_ext lo hi (clamp_ext lo hi v) = clamp_ext lo hi v.
Proof.
  destruct hi as [ | h | ]; simpl; [reflexivity | | ];
    unfold Rmax, Rmin; repeat destruct (Rle_dec _ _); lra.
Qed.

Lemma polar_clamp_idempotent (lo hi v : R) :
  let f x := Rmax Spherical.EPS (Rmin (PI - Spherical.EPS) (Rmax lo (Rmin hi x))) in
  f (f v) = f v.
Proof.
  cbv zeta. pose proof EPS_lt_PI. unfold Rmax, Rmin.
  repeat destruct (Rle_dec _ _); lra.
Qed.

(** With the limits [0, Infinity], [clampLength] changes nothing. *)
Lemma clampLength_default (v : Vector3.t) :
  Vector3.clampLength v 0 Infinity = v.
Proof.
  destruct v as [a b d].
  unfold Vector3.clampLength, Vector3.divideScalar, Vector3.multiplyScalar,
    Vector3.length, clamp_ext.
  cbn [Vector3.x Vector3.y Vector3.z]. cbv zeta.
  set (n := sqrt (a * a + b * b + d * d)).
  assert (Hn : 0 <= n) by apply sqrt_pos.
  rewrite (Rmax_right 0 n) by exact Hn.
  destruct (Req_dec_T n 0) as [Z | NZ].
  - assert (S : a * a + b * b + d * d = 0).
    { apply sqrt_eq_0; [nra | exact Z]. }
    assert (a = 0) by nra. assert (b = 0) by nra. assert (d = 0) by nra.
    subst. rewrite Z. f_equal; ring.
  - f_equal; field; exact NZ.
Qed.

Lemma moveTarget_default (o : OrbitControls) (p : Vector3.t) :
  minTargetRadius o = 0 -> maxTargetRadius o = Infinity ->
  moveTarget o p
  = Vector3.mk (Vector3.x (target o) + Vector3.x p)
      (Rmax (Vector3.y (target o) + Vector3.y p) MIN_TARGET_HEIGHT)
      (Vector3.z (target o) + Vector3.z p).
Proof.
  intros Hmin Hmax. unfold moveTarget. cbv zeta. rewrite Hmin, Hmax.
  rewrite clampLength_default.
  destruct (target o) as [tx ty tz], p as [px py pz], (cursor o) as [cx cy cz].
  unfold Vector3.add, Vector3.sub. cbn [Vector3.x Vector3.y Vector3.z].
  f_equal; try ring. f_equal. ring.
Qed.

Lemma setFromSpherical_ext (s s' : Spherical.t) :
  Spherical.radius s' = Spherical.radius s ->
  Spherical.phi s' = Spherical.phi s ->
  sin (Spherical.theta s') = sin (Spherical.theta s) ->
  cos (Spherical.theta s') = cos (Spherical.theta s) ->
  setFromSpherical s' = setFromSpherical s.
Proof.
  intros Hr Hp Hs Hc. unfold setFromSpherical, Vector3.setFromSphericalCoords.
  rewrite Hr, Hp, Hs, Hc. reflexivity.
Qed.

Lemma set_camera_target_same (o : OrbitControls) :
  set_camera_target (camera o) (target o) o = o.
Proof. destruct o. reflexivity. Qed.

Lemma restrictTheta_unlimited (o : OrbitControls) (theta : R) :
  azimuthLimited o = false -> restrictTheta o theta = theta.
Proof.
  unfold azimuthLimited, restrictTheta. cbv zeta.
  destruct (minAzimuthAngle o), (maxAzimuthAngle o);
    try reflexivity; discriminate.
Qed.

(** The spherical coordinates entering a second [update]: the radius and
    the polar angle the first one left, and an azimuthal angle with the
    same sine and cosine. *)
Lemma incoming_update (c : Controller) :
  0 < Spherical.radius (spherical (vars (update c))) ->
  Spherical.radius (incoming (update c))
  = Spherical.radius (spherical (vars (update c))) /\
  Spherical.phi (incoming (update c))
  = Spherical.phi (spherical (vars (update c))) /\
  sin (Spherical.theta (incoming (update c)))
  = sin (Spherical.theta (spherical (vars (update c)))) /\
  cos (Spherical.theta (incoming (update c)))
  = cos (Spherical.theta (spherical (vars (update c)))) /\
  - PI < Spherical.theta (incoming (update c)) <= PI.
Proof.
  intros Hr.
  assert (Hp : 0 < Spherical.phi (spherical (vars (update c))) < PI).
  { pose proof (polar_safe_zone c) as Z. unfold getPolarAngle in Z.
    unfold Spherical.EPS in Z. lra. }
  pose proof (setFromVector3_setFromSpherical _ Hr Hp) as H. cbv zeta in H.
  unfold incoming. rewrite orbitOffset_update, update_sphericalDelta.
  cbn [Spherical.radius Spherical.phi Spherical.theta].
  rewrite !Rplus_0_r. exact H.
Qed.



(** ** The dolly law *)

(** The radius entering [update] is the current distance of the camera
    from the target. *)
Lemma incoming_radius (c : Controller) :
  Spherical.radius (incoming c) = getDistance c.
Proof.
  unfold incoming, Spherical.setFromVector3, Spherical.setFromCartesianCoords.
  cbv zeta.
  assert (E : sqrt (Vector3.x (orbitOffset c) * Vector3.x (orbitOffset c)
                    + Vector3.y (orbitOffset c) * Vector3.y (orbitOffset c)
                    + Vector3.z (orbitOffset c) * Vector3.z (orbitOffset c))
              = getDistance c).
  { change (sqrt (Vector3.lengthSq (orbitOffset c)) = getDistance c).
    unfold orbitOffset.
    rewrite applyQuaternion_lengthSq by apply setFromUnitVectors_unit.
    unfold getDistance, Vector3.distanceTo, Vector3.distanceToSquared,
      Vector3.lengthSq, Vector3.sub. reflexivity. }
  destruct (Req_dec_T _ _); cbn [Spherical.radius]; exact E.
Qed.

Lemma getDistance_scaled (c : Controller) :
  getDistance (update c)
  = Rabs (clampDistance (this c) (getDistance c * scale (vars c))).
Proof.
  rewrite getDistance_update, update_spherical. cbn [Spherical.radius].
  rewrite incoming_radius. reflexivity.
Qed.


Lemma getDistance_nonneg (c : Controller) : 0 <= getDistance c.
Proof. unfold getDistance, Vector3.distanceTo. apply sqrt_pos. Qed.

Lemma clamp_ext_monotone (lo : R) (hi : ext) (v w : R) :
  v <= w -> clamp_ext lo hi v <= clamp_ext lo hi w.
Proof.
  intros H. destruct hi as [ | h | ]; simpl; [lra | | ];
    unfold Rmax, Rmin; repeat destruct (Rle_dec _ _); lra.
Qed.

Lemma clamp_ext_inside (lo : R) (hi : ext) (v : R) :
  lo <= v -> le_ext v hi -> clamp_ext lo hi v = v.
Proof.
  intros H1 H2. destruct hi as [ | h | ]; unfold le_ext in H2; simpl in *;
    [contradiction | | ];
    unfold Rmax, Rmin; repeat destruct (Rle_dec _ _); lra.
Qed.

Lemma getZoomScale_bounds (o : OrbitControls) (delta : R) :
  0 <= zoomSpeed o -> 0 < getZoomScale o delta <= 1.
Proof.
  intros Hz. rewrite getZoomScale_power. unfold Rpower. split; [apply exp_pos | ].
  assert (L : ln 0.95 < 0).
  { rewrite <- ln_1. apply ln_increasing; lra. }
  assert (E : zoomSpeed o * Rabs delta / 100 * ln 0.95 <= 0).
  { pose proof (Rabs_pos delta). 
    assert (0 <= zoomSpeed o * Rabs delta / 100).
    { apply Rmult_le_pos; [apply Rmult_le_pos; assumption | lra]. }
    nra. }
  destruct E as [E | E].
  - left. rewrite <- exp_0. apply exp_increasing. exact E.
  - right. rewrite E. apply exp_0.
Qed.

Lemma getZoomScale_positive (o : OrbitControls) (delta : R) :
  0 < getZoomScale o delta.
Proof. rewrite getZoomScale_power. unfold Rpower. apply exp_pos. Qed.

Lemma normalizedDelta_sign (e : WheelEvent) (c : Controller) :
  (0 < deltaY e -> 0 < normalizedDelta e c) /\
  (deltaY e < 0 -> normalizedDelta e c < 0) /\
  (deltaY e = 0 -> normalizedDelta e c = 0).
Proof.
  unfold normalizedDelta. cbv zeta.
  destruct (Z.eqb (deltaMode e) 1); [ | destruct (Z.eqb (deltaMode e) 2)];
    destruct (wheel_ctrlKey e && negb (controlActive (vars c)))%bool;
    repeat split; intros; lra.
Qed.

(** The distance after a wheel event handled in state NONE. *)
Lemma getDistance_wheel (e : WheelEvent) (c : Controller) :
  state (vars c) = STATE.NONE ->
  getDistance (onMouseWheel e c)
  = Rabs (clampDistance (this c)
            (getDistance c
             * scale (vars (accumulateMouseWheel (normalizedDelta e c) c)))).
Proof.
  intros Hs. unfold onMouseWheel. rewrite Hs. cbn [STATE.is_NONE negb].
  cbv zeta. unfold handleMouseWheel.
  match goal with
  | |- getDistance (dispatchEvent _ (update ?x)) = _ =>
      change (getDistance (update x) = 
              Rabs (clampDistance (this c)
                      (getDistance c
                       * scale (vars (accumulateMouseWheel
                                        (normalizedDelta e c) c)))))
  end.
  rewrite getDistance_scaled. unfold accumulateMouseWheel.
  destruct (Rlt_dec _ _); [reflexivity | ].
  destruct (Rlt_dec _ _); reflexivity.
Qed.



Lemma onMouseWheel_keeps (e : WheelEvent) (c : Controller) :
  state (vars c) = STATE.NONE ->
  state (vars (onMouseWheel e c)) = STATE.NONE /\
  scale (vars (onMouseWheel e c)) = 1 /\
  controlActive (vars (onMouseWheel e c)) = controlActive (vars c) /\
  minDistance (this (onMouseWheel e c)) = minDistance (this c) /\
  maxDistance (this (onMouseWheel e c)) = maxDistance (this c) /\
  zoomSpeed (this (onMouseWheel e c)) = zoomSpeed (this c).
Proof.
  intros Hs. unfold onMouseWheel. rewrite Hs. cbn [STATE.is_NONE negb].
  cbv zeta. unfold handleMouseWheel.
  match goal with
  | |- context [dispatchEvent _endEvent (update ?x)] =>
      change (vars (dispatchEvent _endEvent (update x))) with (vars (update x));
      change (this (dispatchEvent _endEvent (update x))) with (this (update x));
      assert (F : this x = this c /\ state (vars x) = STATE.NONE
                  /\ controlActive (vars x) = controlActive (vars c));
      [ | destruct F as (F1 & F2 & F3);
          rewrite update_state, update_scale, (update_this x), F1, F2;
          rewrite (update_vars x);
          cbn [controlActive set_scale set_panOffset set_sphericalDelta
               set_spherical minDistance maxDistance zoomSpeed
               set_camera_target];
          rewrite F3; repeat split ]
  end.
  unfold accumulateMouseWheel.
  destruct (Rlt_dec _ _); [repeat split; exact Hs | ].
  destruct (Rlt_dec _ _); repeat split; exact Hs.
Qed.

Lemma getZoomScale_opposite (o o' : OrbitControls) (d : R) :
  zoomSpeed o' = zoomSpeed o -> getZoomScale o' (- d) = getZoomScale o d.
Proof.
  intros H. unfold getZoomScale. rewrite H.
  replace (- d * 0.01) with (- (d * 0.01)) by ring.
  rewrite Rabs_Ropp. reflexivity.
Qed.



(** ** The azimuthal restriction *)

Lemma restrictTheta_allowed (o : OrbitControls) (a b theta : R) :
  minAzimuthAngle o = Fin a -> maxAzimuthAngle o = Fin b ->
  - PI <= a <= PI -> - PI <= b <= PI ->
  azimuthAllowed a b (restrictTheta o theta) /\
  (azimuthAllowed a b theta -> restrictTheta o theta = theta).
Proof.
  intros Ha Hb Ra Rb. unfold restrictTheta, azimuthAllowed. rewrite Ha, Hb.
  cbv zeta. unfold TWO_PI.
  destruct (Rlt_dec a (- PI)); [lra | ]. destruct (Rlt_dec PI a); [lra | ].
  destruct (Rlt_dec b (- PI)); [lra | ]. destruct (Rlt_dec PI b); [lra | ].
  destruct (Rle_dec a b).
  - unfold Rmax, Rmin. repeat destruct (Rle_dec _ _); repeat split; intros; lra.
  - destruct (Rlt_dec ((a + b) / 2) theta); unfold Rmax, Rmin;
      repeat destruct (Rle_dec _ _); repeat split; intros; try lra;
      try (left; lra); try (right; lra);
      match goal with
      | H : _ /\ _ |- _ => destruct H as (_ & H); destruct H; lra
      end.
Qed.

Lemma azimuth_update (c : Controller) :
  azimuth_cfg (this c) ->
  azimuth_ok (this (update c)) (spherical (vars (update c))).
Proof.
  intros (a & b & Ha & Hb & Ra & Rb) a' b'.
  rewrite update_this. cbn [minAzimuthAngle maxAzimuthAngle set_camera_target].
  rewrite Ha, Hb. intros Ea Eb. injection Ea as <-. injection Eb as <-.
  rewrite update_spherical. cbn [Spherical.theta].
  apply (restrictTheta_allowed (this c)); assumption.
Qed.



(** ** The target *)





(** ** What a run never writes *)

Lemma same_settings_refl (o : OrbitControls) : same_settings o o.
Proof. unfold same_settings. repeat split. Qed.

Lemma same_settings_trans (a b c : OrbitControls) :
  same_settings a b -> same_settings b c -> same_settings a c.
Proof.
  unfold same_settings. intros H1 H2.
  repeat match goal with
         | H : _ /\ _ |- _ => destruct H
         end.
  repeat split; congruence.
Qed.

Lemma same_settings_update (c : Controller) :
  same_settings (this c) (this (update c)).
Proof.
  unfold same_settings.
  rewrite (update_this c), (update_camera c).
  repeat split.
Qed.

Lemma same_settings_step (c c' : Controller) :
  step_shape c c' -> same_settings (this c) (this c').
Proof.
  intros [F | (c1 & F1 & F2)].
  - rewrite (frame_this _ _ F). apply same_settings_refl.
  - rewrite (frame_this _ _ F2), <- (frame_this _ _ F1).
    apply same_settings_update.
Qed.


(** ** Nothing stays pending *)

Lemma same_pending_refl (c : Controller) : same_pending c c.
Proof. unfold same_pending. auto. Qed.

Lemma same_pending_trans (a b c : Controller) :
  same_pending a b -> same_pending b c -> same_pending a c.
Proof.
  unfold same_pending. intros (A1 & A2 & A3) (B1 & B2 & B3).
  repeat split; congruence.
Qed.

Ltac pending_plain := solve [unfold same_pending; simpl; auto].

Lemma pending_andThen (c : Controller) (r : outcome) (k : Controller -> outcome) :
  same_pending c (state_of r) ->
  (forall c1, same_pending c1 (state_of (k c1))) ->
  same_pending c (state_of (r >>= k)).
Proof.
  intros Hr Hk. destruct r as [c1 | c1]; simpl in *.
  - apply same_pending_trans with c1; [assumption | apply Hk].
  - assumption.
Qed.

Lemma pending_startIfActive (c : Controller) : same_pending c (startIfActive c).
Proof. unfold startIfActive. destruct (STATE.is_NONE _); pending_plain. Qed.

Lemma pending_handleTouchStartRotate (e : PointerEvent) (c : Controller) :
  same_pending c (state_of (handleTouchStartRotate e c)).
Proof.
  unfold handleTouchStartRotate. destruct (touchAnchor e c); pending_plain.
Qed.

Lemma pending_handleTouchStartPan (e : PointerEvent) (c : Controller) :
  same_pending c (state_of (handleTouchStartPan e c)).
Proof.
  unfold handleTouchStartPan. destruct (touchAnchor e c); pending_plain.
Qed.

Lemma pending_handleTouchStartDolly (e : PointerEvent) (c : Controller) :
  same_pending c (state_of (handleTouchStartDolly e c)).
Proof.
  unfold handleTouchStartDolly. destruct (touchDistance e c); pending_plain.
Qed.

Lemma pending_onTouchStart (e : PointerEvent) (c : Controller) :
  same_pending c (state_of (onTouchStart e c)).
Proof.
  unfold onTouchStart. cbv zeta.
  apply same_pending_trans with (trackPointer e c); [pending_plain | ].
  apply pending_andThen; [ | intros; apply pending_startIfActive].
  destruct (List.length _) as [ | [ | [ | n]]]; simpl Z.eqb; cbv iota;
    try pending_plain.
  - apply pending_andThen;
      [apply pending_handleTouchStartRotate | intros; pending_plain].
  - apply pending_andThen; [ | intros; pending_plain].
    unfold handleTouchStartDollyPan.
    apply pending_andThen;
      [apply pending_handleTouchStartDolly
      | apply pending_handleTouchStartPan].
Qed.

Lemma pending_onMouseDown (e : PointerEvent) (c : Controller) :
  same_pending c (onMouseDown e c).
Proof.
  unfold onMouseDown. cbv zeta.
  match goal with
  | |- same_pending _ (startIfActive ?x) =>
      apply same_pending_trans with x; [ | apply pending_startIfActive]
  end.
  repeat match goal with
         | |- context [if ?b then _ else _] => destruct b
         end; pending_plain.
Qed.

Lemma pending_onPointerDown (e : PointerEvent) (c : Controller) :
  same_pending c (state_of (onPointerDown e c)).
Proof.
  unfold onPointerDown. cbv zeta.
  match goal with
  | |- context [isTrackingPointer e ?x] =>
      apply same_pending_trans with x;
      [destruct (Nat.eqb _ _); pending_plain | generalize x]
  end.
  intros c1. destruct (isTrackingPointer e c1); [apply same_pending_refl | ].
  apply same_pending_trans with (addPointer e c1); [pending_plain | ].
  destruct (String.eqb _ _);
    [apply pending_onTouchStart | apply pending_onMouseDown].
Qed.

Lemma pending_onPointerUp (e : PointerEvent) (c : Controller) :
  same_pending c (state_of (onPointerUp e c)).
Proof.
  unfold onPointerUp. cbv zeta.
  apply same_pending_trans with (removePointer e c); [pending_plain | ].
  generalize (removePointer e c). intros c1.
  destruct (pointers (vars c1)) as [ | p [ | q l]].
  - pending_plain.
  - destruct (lookupPosition _ _);
      [apply pending_onTouchStart | apply same_pending_refl].
  - apply same_pending_refl.
Qed.

(** A touch move either throws before it has written anything, or runs
    to its call of [update]: the pan or rotate part of a two-finger move
    reads the same second pointer as the dolly part before it. *)
Lemma touchAnchor_of_distance (e : PointerEvent) (c c1 : Controller) (d : R) :
  touchDistance e c = Some d ->
  pointers (vars c1) = pointers (vars c) ->
  pointerPositions (vars c1) = pointerPositions (vars c) ->
  exists a, touchAnchor e c1 = Some a.
Proof.
  unfold touchDistance, touchAnchor, getSecondPointerPosition. cbv zeta.
  intros H Hp Hq. rewrite Hp, Hq.
  destruct (Nat.eqb _ _); [eexists; reflexivity | ].
  destruct (match nth_error (pointers (vars c)) 0 with
            | Some p0 =>
                if Z.eqb (pointerId e) p0
                then nth_error (pointers (vars c)) 1 else Some p0
            | None => None
            end) as [id | ]; [ | discriminate].
  destruct (lookupPosition id (pointerPositions (vars c)));
    [eexists; reflexivity | discriminate].
Qed.

Lemma settles_onTouchMove (e : PointerEvent) (c : Controller) :
  same_pending c (state_of (onTouchMove e c)) \/
  exists c1, state_of (onTouchMove e c) = update c1.
Proof.
  unfold onTouchMove. cbv zeta.
  change (state (vars (trackPointer e c))) with (state (vars c)).
  destruct (state (vars c)); try (left; pending_plain).
  - unfold handleTouchMoveRotate.
    destruct (touchAnchor e (trackPointer e c));
      [right; eexists; reflexivity | left; pending_plain].
  - unfold handleTouchMovePan.
    destruct (touchAnchor e (trackPointer e c));
      [right; eexists; reflexivity | left; pending_plain].
  - unfold handleTouchMoveDollyPan, handleTouchMoveDolly.
    destruct (touchDistance e (trackPointer e c)) as [d | ] eqn:D;
      [ | left; pending_plain].
    cbv zeta. cbn [andThen]. unfold handleTouchMovePan.
    match goal with
    | |- context [touchAnchor e ?x] =>
        destruct (touchAnchor_of_distance e (trackPointer e c) x d D
                    eq_refl eq_refl) as (a & A); rewrite A
    end.
    right. eexists. reflexivity.
  - unfold handleTouchMoveDollyRotate, handleTouchMoveDolly.
    destruct (touchDistance e (trackPointer e c)) as [d | ] eqn:D;
      [ | left; pending_plain].
    cbv zeta. cbn [andThen]. unfold handleTouchMoveRotate.
    match goal with
    | |- context [touchAnchor e ?x] =>
        destruct (touchAnchor_of_distance e (trackPointer e c) x d D
                    eq_refl eq_refl) as (a & A); rewrite A
    end.
    right. eexists. reflexivity.
Qed.

Lemma settles_deliver (i : Input) (c : Controller) :
  same_pending c (state_of (deliver i c)) \/
  exists c1, same_pending (update c1) (state_of (deliver i c)).
Proof.
  destruct i as [e | e | e | e | e | e | ]; cbn [deliver].
  - left. apply pending_onPointerDown.
  - destruct (listening c); [ | left; apply same_pending_refl].
    unfold onPointerMove. destruct (String.eqb _ _).
    + destruct (settles_onTouchMove e c) as [H | (c1 & H)];
        [left; exact H | right; exists c1; rewrite H; apply same_pending_refl].
    + cbn [state_of]. unfold onMouseMove.
      destruct (state (vars c)); try (left; apply same_pending_refl);
        right; eexists; apply same_pending_refl.
  - destruct (listening c);
      left; [apply pending_onPointerUp | apply same_pending_refl].
  - left. apply pending_onPointerUp.
  - cbn [state_of]. unfold onMouseWheel.
    destruct (negb _); [left; apply same_pending_refl | ].
    right. eexists. cbv zeta. unfold handleMouseWheel. pending_plain.
  - cbn [state_of]. unfold onKeyDown, handleKeyDown.
    destruct (accumulateKeyDown e c);
      [right; eexists; apply same_pending_refl | left; apply same_pending_refl].
  - left. pending_plain.
Qed.

Lemma settled_update (c : Controller) : settled (update c).
Proof.
  unfold settled.
  rewrite update_sphericalDelta, update_panOffset, update_scale. auto.
Qed.

Lemma settled_same_pending (c c' : Controller) :
  same_pending c c' -> settled c -> settled c'.
Proof.
  unfold same_pending, settled. intros (A1 & A2 & A3) (B1 & B2 & B3).
  repeat split; congruence.
Qed.

(** X9.  No input leaves a rotation, pan or zoom pending: from a state
    with neutral pending deltas, as the constructor leaves it, every run
    ends with [sphericalDelta] = (0, 0, 0), [panOffset] = (0, 0, 0) and
    [scale] = 1, also when a handler throws on the way. *)
Theorem run_leaves_nothing_pending (c : Controller) (inputs : list Input) :
  settled c -> settled (run inputs c).
Proof.
  revert c. induction inputs as [ | i inputs IH]; intros c H; simpl.
  - exact H.
  - apply IH. destruct (settles_deliver i c) as [S | (c1 & S)].
    + exact (settled_same_pending _ _ S H).
    + exact (settled_same_pending _ _ S (settled_update c1)).
Qed.

Lemma run_leaves_nothing_pending_witness :
  settled (new_OrbitControls (upright_camera (Vector3.mk 5 5 5)) viewport) /\
  settled (run rotate_drag
             (new_OrbitControls (upright_camera (Vector3.mk 5 5 5)) viewport)).
Proof.
  assert (A : settled (new_OrbitControls (upright_camera (Vector3.mk 5 5 5))
                         viewport)) by apply settled_update.
  split; [exact A | ].
  exact (run_leaves_nothing_pending _ rotate_drag A).
Defined.

(** ** Touch-only runs never throw *)

Lemma touch_inv_ext (c c' : Controller) :
  same_registry c c' -> touch_inv c -> touch_inv c'.
Proof.
  unfold same_registry, touch_inv, tracked. intros (P & Q & S).
  rewrite P, Q, S. tauto.
Qed.

Lemma same_registry_update (c : Controller) : same_registry c (update c).
Proof. unfold same_registry. rewrite update_vars. repeat split. Qed.

Lemma storePosition_lookup_other
  (id p : Z) (q : Vector2.t) (m : list (Z * Vector2.t)) :
  p <> id -> lookupPosition p (storePosition id q m) = lookupPosition p m.
Proof.
  intros Ne. induction m as [ | [k r] m IH]; simpl.
  - destruct (Z.eqb_spec id p); [congruence | reflexivity].
  - destruct (Z.eqb_spec k id) as [-> | Nk]; simpl.
    + destruct (Z.eqb_spec id p); [congruence | reflexivity].
    + destruct (Z.eqb k p); [reflexivity | exact IH].
Qed.

Lemma tracked_trackPointer (e : PointerEvent) (c : Controller) :
  (forall p, In p (pointers (vars c)) -> p <> pointerId e ->
             lookupPosition p (pointerPositions (vars c)) <> None) ->
  forall p, In p (pointers (vars c)) \/ p = pointerId e ->
            lookupPosition p (pointerPositions (vars (trackPointer e c)))
            <> None.
Proof.
  intros H p Hp. unfold trackPointer. cbn [vars with_vars set_pointerPositions
    pointerPositions].
  destruct (Z.eq_dec p (pointerId e)) as [-> | Ne].
  - rewrite storePosition_lookup_same. discriminate.
  - rewrite storePosition_lookup_other by exact Ne.
    destruct Hp as [Hp | Hp]; [apply H; assumption | contradiction].
Qed.

(** In a registry of two tracked pointers the second pointer of any event
    has a recorded position. *)
Lemma second_pointer_tracked (e : PointerEvent) (c : Controller) :
  List.length (pointers (vars c)) = 2%nat ->
  tracked c ->
  exists position, getSecondPointerPosition e c = Some position.
Proof.
  intros L T. unfold getSecondPointerPosition. cbv zeta.
  destruct (pointers (vars c)) as [ | a [ | b [ | x l]]] eqn:E;
    try discriminate.
  cbn [nth_error].
  assert (Ha : lookupPosition a (pointerPositions (vars c)) <> None)
    by (apply T; rewrite E; simpl; auto).
  assert (Hb : lookupPosition b (pointerPositions (vars c)) <> None)
    by (apply T; rewrite E; simpl; auto).
  destruct (Z.eqb (pointerId e) a).
  - destruct (lookupPosition b _); [eexists; reflexivity | contradiction].
  - destruct (lookupPosition a _); [eexists; reflexivity | contradiction].
Qed.

Lemma onTouchStart_returns (e : PointerEvent) (c : Controller) :
  NoDup (pointers (vars c)) ->
  (forall p, In p (pointers (vars c)) -> p <> pointerId e ->
             lookupPosition p (pointerPositions (vars c)) <> None) ->
  exists c', onTouchStart e c = Returned c' /\ touch_inv c'.
Proof.
  intros N T.
  assert (Tt : tracked (trackPointer e c)).
  { intros p Hp. apply tracked_trackPointer; [exact T | left; exact Hp]. }
  unfold onTouchStart. cbv zeta.
  change (pointers (vars (trackPointer e c))) with (pointers (vars c)).
  destruct (pointers (vars c)) as [ | a [ | b [ | x l]]] eqn:E;
    cbn [List.length]; simpl Z.eqb; cbv iota.
  - eexists. split; [reflexivity | ].
    unfold touch_inv, tracked. simpl. rewrite E. repeat split; [constructor | ].
    intros p [].
  - unfold handleTouchStartRotate, touchAnchor.
    change (pointers (vars (trackPointer e c))) with (pointers (vars c)).
    rewrite E. cbn [List.length Nat.eqb andThen lift].
    eexists. split; [reflexivity | ].
    unfold touch_inv. split; [simpl; rewrite E; exact N | ].
    split; [ | simpl; rewrite E; reflexivity].
    intros p Hp. apply Tt. simpl in *. exact Hp.
  - unfold handleTouchStartDollyPan, handleTouchStartDolly, touchDistance.
    destruct (second_pointer_tracked e (trackPointer e c)) as (pos & Hpos).
    { simpl. rewrite E. reflexivity. }
    { exact Tt. }
    rewrite Hpos. cbv zeta. cbn [andThen].
    unfold handleTouchStartPan, touchAnchor.
    match goal with
    | |- context [getSecondPointerPosition e ?x] =>
        change (getSecondPointerPosition e x)
          with (getSecondPointerPosition e (trackPointer e c));
        change (pointers (vars x)) with (pointers (vars c))
    end.
    rewrite Hpos, E. cbn [List.length Nat.eqb andThen lift].
    eexists. split; [reflexivity | ].
    unfold touch_inv. split; [simpl; rewrite E; exact N | ].
    split; [ | simpl; rewrite E; reflexivity].
    intros p Hp. apply Tt. simpl in *. exact Hp.
  - eexists. split; [reflexivity | ].
    unfold touch_inv. split; [simpl; rewrite E; exact N | ].
    split; [ | simpl; exact I].
    intros p Hp. apply Tt. simpl in *. exact Hp.
Qed.

Lemma touch_inv_trackPointer (e : PointerEvent) (c : Controller) :
  touch_inv c -> touch_inv (trackPointer e c).
Proof.
  intros (N & T & S). unfold touch_inv.
  split; [exact N | ]. split; [ | exact S].
  intros p Hp. apply tracked_trackPointer; [ | left; exact Hp].
  intros q Hq _. apply T. exact Hq.
Qed.

Lemma onTouchMove_returns (e : PointerEvent) (c : Controller) :
  touch_inv c -> exists c', onTouchMove e c = Returned c' /\ touch_inv c'.
Proof.
  intros H. pose proof (touch_inv_trackPointer e c H) as Ht.
  unfold onTouchMove. cbv zeta.
  destruct Ht as (N & T & S).
  change (state (vars (trackPointer e c))) with (state (vars c)) in *.
  change (pointers (vars (trackPointer e c))) with (pointers (vars c)) in *.
  destruct (state (vars c)) eqn:Es; try contradiction.
  - eexists. split; [reflexivity | ].
    unfold touch_inv. split; [exact N | ]. split; [exact T | simpl; exact I].
  - unfold handleTouchMoveRotate, touchAnchor.
    change (pointers (vars (trackPointer e c))) with (pointers (vars c)).
    rewrite S. cbn [Nat.eqb andThen lift].
    eexists. split; [reflexivity | ].
    apply (touch_inv_ext _ _ (same_registry_update _)).
    unfold touch_inv. split; [exact N | ]. split; [exact T | ].
    simpl. rewrite Es. exact S.
  - unfold handleTouchMoveDollyPan, handleTouchMoveDolly, touchDistance.
    destruct (second_pointer_tracked e (trackPointer e c) S T) as (pos & Hpos).
    rewrite Hpos. cbv zeta. cbn [andThen].
    unfold handleTouchMovePan, touchAnchor.
    match goal with
    | |- context [getSecondPointerPosition e ?x] =>
        change (getSecondPointerPosition e x)
          with (getSecondPointerPosition e (trackPointer e c));
        change (pointers (vars x)) with (pointers (vars c))
    end.
    rewrite Hpos, S. cbn [Nat.eqb andThen lift].
    eexists. split; [reflexivity | ].
    apply (touch_inv_ext _ _ (same_registry_update _)).
    unfold touch_inv. split; [exact N | ]. split; [exact T | ].
    simpl. rewrite Es. exact S.
Qed.

Lemma onPointerDown_touch_returns (e : PointerEvent) (c : Controller) :
  pointerType e = "touch"%string ->
  touch_inv c ->
  exists c', onPointerDown e c = Returned c' /\ touch_inv c'.
Proof.
  intros Ht (N & T & S). unfold onPointerDown. cbv zeta.
  match goal with
  | |- context [isTrackingPointer e ?x] =>
      assert (R : same_registry c x)
        by (destruct (Nat.eqb _ _); repeat split);
      assert (Hx : touch_inv x)
        by (apply (touch_inv_ext c); [exact R | repeat split; assumption]);
      generalize dependent x
  end.
  intros c1 R (N1 & T1 & S1).
  destruct (isTrackingPointer e c1) eqn:G.
  - eexists. split; [reflexivity | repeat split; assumption].
  - rewrite Ht. cbn [String.eqb Ascii.eqb Bool.eqb andb].
    apply onTouchStart_returns.
    + apply (frame_NoDup c1); [apply frame_addPointer; exact G | exact N1].
    + unfold addPointer. cbn [vars with_vars set_pointers pointers
        pointerPositions].
      intros p Hp Ne. apply in_app_or in Hp. destruct Hp as [Hp | [Hp | []]].
      * apply T1. exact Hp.
      * congruence.
Qed.

Lemma onPointerUp_returns (e : PointerEvent) (c : Controller) :
  touch_inv c -> exists c', onPointerUp e c = Returned c' /\ touch_inv c'.
Proof.
  intros (N & T & S). unfold onPointerUp. cbv zeta.
  assert (N1 : NoDup (pointers (vars (removePointer e c))))
    by (apply (frame_NoDup c); [apply frame_removePointer | exact N]).
  assert (T1 : tracked (removePointer e c)).
  { intros p Hp. unfold removePointer in *.
    cbn [vars with_vars set_pointers set_pointerPositions pointers
         pointerPositions] in *.
    destruct (Z.eq_dec p (pointerId e)) as [-> | Ne].
    - exfalso. exact (spliceFirst_not_In _ _ N Hp).
    - rewrite deletePosition_lookup_other by exact Ne.
      apply T. exact (spliceFirst_incl _ _ _ Hp). }
  destruct (pointers (vars (removePointer e c))) as [ | p [ | q l]] eqn:E.
  - eexists. split; [reflexivity | ].
    unfold touch_inv, tracked. simpl.
    unfold removePointer in E. simpl in E. rewrite E.
    repeat split; [constructor | intros x []].
  - assert (Hp : lookupPosition p (pointerPositions (vars (removePointer e c)))
                 <> None) by (apply T1; rewrite E; simpl; auto).
    destruct (lookupPosition p _) as [pos | ]; [ | contradiction].
    apply onTouchStart_returns; [rewrite E; exact N1 | ].
    intros x Hx _. apply T1. exact Hx.
  - eexists. split; [reflexivity | ].
    unfold touch_inv. split; [rewrite E; exact N1 | ]. split; [exact T1 | ].
    change (state (vars (removePointer e c))) with (state (vars c)).
    rewrite E.
    destruct (state (vars c)); try exact S; try exact I.
    + (* TOUCH_ROTATE: the registry had one pointer, so it cannot hold two *)
      exfalso.
      assert (L : (List.length (spliceFirst (pointerId e) (pointers (vars c)))
                   <= List.length (pointers (vars c)))%nat).
      { clear. induction (pointers (vars c)) as [ | a l IH]; simpl;
          [apply le_n | ].
        destruct (Z.eqb a (pointerId e)); simpl;
          [apply le_S, le_n | apply le_n_S, IH]. }
      unfold removePointer in E. simpl in E. rewrite E, S in L. simpl in L.
      apply Nat.le_ngt in L. apply L. apply le_n_S, le_n_S, Nat.le_0_l.
    + (* TOUCH_DOLLY_PAN: the registry still holds two pointers *)
      assert (L : (List.length (spliceFirst (pointerId e) (pointers (vars c)))
                   <= List.length (pointers (vars c)))%nat).
      { clear. induction (pointers (vars c)) as [ | a l' IH]; simpl;
          [apply le_n | ].
        destruct (Z.eqb a (pointerId e)); simpl;
          [apply le_S, le_n | apply le_n_S, IH]. }
      unfold removePointer in E. simpl in E. rewrite E, S in L. simpl in L.
      destruct l as [ | y l]; [reflexivity | ].
      exfalso. simpl in L. apply Nat.le_ngt in L. apply L.
      repeat apply le_n_S. apply Nat.le_0_l.
Qed.

Lemma same_registry_trans (a b c : Controller) :
  same_registry a b -> same_registry b c -> same_registry a c.
Proof.
  unfold same_registry. intros (A1 & A2 & A3) (B1 & B2 & B3).
  repeat split; congruence.
Qed.

Lemma onMouseWheel_registry (e : WheelEvent) (c : Controller) :
  same_registry c (onMouseWheel e c).
Proof.
  unfold onMouseWheel. destruct (negb _); [repeat split | ].
  cbv zeta. unfold handleMouseWheel.
  match goal with
  | |- same_registry _ (dispatchEvent _ (update ?x)) =>
      apply same_registry_trans with x;
      [ | apply same_registry_trans with (update x);
          [apply same_registry_update | repeat split] ]
  end.
  unfold accumulateMouseWheel.
  destruct (Rlt_dec _ _); [repeat split | ].
  destruct (Rlt_dec _ _); repeat split.
Qed.

Lemma onKeyDown_registry (e : KeyboardEvent) (c : Controller) :
  same_registry c (onKeyDown e c).
Proof.
  unfold onKeyDown, handleKeyDown.
  destruct (accumulateKeyDown e c) as [c1 | ] eqn:E; [ | repeat split].
  apply same_registry_trans with (domCall preventDefault c1);
    [ | apply same_registry_update].
  revert E. unfold accumulateKeyDown. cbv zeta.
  repeat (destruct (String.eqb _ _)); try discriminate;
    intros E; injection E as <-; destruct (key_shiftKey e); repeat split.
Qed.

Lemma deliver_touch_returns (i : Input) (c : Controller) :
  touch_only i -> touch_inv c ->
  exists c', deliver i c = Returned c' /\ touch_inv c'.
Proof.
  intros Ht H. destruct i as [e | e | e | e | e | e | ]; cbn [deliver].
  - apply onPointerDown_touch_returns; assumption.
  - destruct (listening c); [ | eexists; split; [reflexivity | exact H]].
    unfold onPointerMove. simpl in Ht. rewrite Ht.
    cbn [String.eqb Ascii.eqb Bool.eqb andb].
    apply onTouchMove_returns. exact H.
  - destruct (listening c); [ | eexists; split; [reflexivity | exact H]].
    apply onPointerUp_returns. exact H.
  - apply onPointerUp_returns. exact H.
  - eexists. split; [reflexivity | ].
    apply (touch_inv_ext c); [apply onMouseWheel_registry | exact H].
  - eexists. split; [reflexivity | ].
    apply (touch_inv_ext c); [apply onKeyDown_registry | exact H].
  - eexists. split; [reflexivity | ].
    apply (touch_inv_ext c); [repeat split | exact H].
Qed.

Lemma touch_inv_never_throws (inputs : list Input) (c : Controller) :
  Forall touch_only inputs -> touch_inv c -> never_throws inputs c.
Proof.
  revert c. induction inputs as [ | i inputs IH]; intros c F H; simpl.
  - exact I.
  - inversion F as [ | ? ? Hi Hr]; subst.
    destruct (deliver_touch_returns i c Hi H) as (c' & E & H').
    split; [exists c'; exact E | ].
    rewrite E. apply IH; assumption.
Qed.

(** X10.  On a touch screen no handler throws: along every run from the
    constructor whose pointer events are all touches, with wheel and key
    events in any place, every handler returns. *)
Theorem touch_runs_never_throw
  (cam : Camera) (el : Element) (inputs : list Input) :
  Forall touch_only inputs ->
  never_throws inputs (new_OrbitControls cam el).
Proof.
  intros F. apply touch_inv_never_throws; [exact F | ].
  unfold new_OrbitControls.
  apply (touch_inv_ext _ _ (same_registry_update _)).
  unfold touch_inv, tracked. simpl. repeat split; [constructor | ].
  intros p [].
Qed.

Lemma touch_runs_never_throw_witness :
  Forall touch_only pinch /\
  never_throws pinch
    (new_OrbitControls (upright_camera (Vector3.mk 5 5 5)) viewport).
Proof.
  assert (F : Forall touch_only pinch)
    by (repeat constructor).
  split; [exact F | ].
  exact (touch_runs_never_throw _ _ pinch F).
Defined.

(** ** Mouse presses, mixed pointers and keys *)

Lemma onPointerDown_first_mouse (e : PointerEvent) (c : Controller) :
  pointers (vars c) = [] ->
  pointerType e <> "touch"%string ->
  onPointerDown e c
  = Returned
      (onMouseDown e
         (addPointer e
            (set_listening true
               (domCall (setPointerCapture (pointerId e)) c)))).
Proof.
  intros P T. apply String.eqb_neq in T.
  unfold onPointerDown. rewrite P. cbn [List.length Nat.eqb].
  cbv zeta. unfold isTrackingPointer.
  cbn [vars set_listening domCall pointers]. rewrite P.
  cbn [existsb]. rewrite T. reflexivity.
Qed.

Lemma onMouseDown_effect (e : PointerEvent) (c : Controller) :
  let c' := onMouseDown e c in
  this c' = this c /\
  spherical (vars c') = spherical (vars c) /\
  same_pending c c' /\
  pointers (vars c') = pointers (vars c) /\
  pointerPositions (vars c') = pointerPositions (vars c) /\
  listening c' = listening c /\
  dom c' = dom c /\
  events c'
  = (if mapped_button (button e) then [_startEvent] else []) ++ events c.
Proof.
  cbv zeta. unfold onMouseDown, mapped_button. cbv zeta.
  destruct (Z.eqb (button e) 0);
    [ | destruct (Z.eqb (button e) 1); [ | destruct (Z.eqb (button e) 2)]];
    try destruct (shiftKey e);
    unfold same_pending; simpl; repeat split.
Qed.

(** X11.  A click: on a controller with no pointer registered, pressing
    and releasing a mouse button without moving returns the controller
    to rest (state NONE, empty registry, listeners removed) with the pose,
    the spherical state and the pending deltas untouched.  It dispatches a
    start and then an end when the button is the left, middle or right
    one, and an end with no start before it for any other button. *)
Theorem click_round_trip (e : PointerEvent) (c : Controller) :
  pointers (vars c) = [] ->
  pointerType e <> "touch"%string ->
  let c' := run (click e) c in
  this c' = this c /\
  spherical (vars c') = spherical (vars c) /\
  same_pending c c' /\
  state (vars c') = STATE.NONE /\
  pointers (vars c') = [] /\
  listening c' = false /\
  dispatched c c'
    (if mapped_button (button e) then [_endEvent; _startEvent]
     else [_endEvent]).
Proof.
  intros P T. cbv zeta. unfold click. cbn [run deliver].
  rewrite (onPointerDown_first_mouse e c P T). cbn [state_of].
  match goal with
  | |- context [onMouseDown e ?x] =>
      destruct (onMouseDown_effect e x)
        as (H1 & H2 & (H3 & H4 & H5) & H6 & H7 & H8 & H9 & H10);
      remember (onMouseDown e x) as c1 eqn:D; clear D
  end.
  cbn [this vars addPointer with_vars set_listening domCall pointers
       set_pointers listening events spherical sphericalDelta panOffset scale]
    in H1, H2, H3, H4, H5, H6, H8, H10.
  rewrite P in H6. cbn [app] in H6.
  rewrite H8. unfold onPointerUp, removePointer. cbv zeta.
  cbn [vars with_vars set_pointers set_pointerPositions pointers].
  rewrite H6. cbn [spliceFirst]. rewrite Z.eqb_refl. cbn [state_of].
  unfold dispatched, same_pending.
  cbn [this vars events listening set_state_of with_vars set_state
       dispatchEvent set_listening domCall state pointers spherical
       sphericalDelta panOffset scale set_pointers set_pointerPositions].
  rewrite H10. repeat split; try assumption.
  destruct (mapped_button (button e)); reflexivity.
Qed.

Lemma click_round_trip_witness :
  pointers (vars (update demo)) = [] /\
  pointerType (mouse_at 100 100 0%Z false) <> "touch"%string /\
  dispatched (update demo)
    (run (click (mouse_at 100 100 0%Z false)) (update demo))
    [_endEvent; _startEvent].
Proof.
  assert (P : pointers (vars (update demo)) = [])
    by (rewrite update_pointers; reflexivity).
  assert (T : pointerType (mouse_at 100 100 0%Z false) <> "touch"%string)
    by discriminate.
  split; [exact P | ]. split; [exact T | ].
  exact (proj2 (proj2 (proj2 (proj2 (proj2 (proj2
    (click_round_trip (mouse_at 100 100 0%Z false) (update demo) P T))))))).
Defined.

(** X12.  A touch contact that arrives while one other pointer is
    registered without a recorded position, as a pressed mouse button is,
    makes [onPointerDown] throw: the contact is registered and its position
    recorded, but the gesture state is not updated and no notification is
    dispatched. *)
Theorem touch_after_mouse_throws (e : PointerEvent) (m : Z) (c : Controller) :
  pointers (vars c) = [m] ->
  lookupPosition m (pointerPositions (vars c)) = None ->
  pointerType e = "touch"%string ->
  pointerId e <> m ->
  exists c',
    deliver (pointerdown e) c = Thrown c' /\
    pointers (vars c') = [m; pointerId e] /\
    lookupPosition (pointerId e) (pointerPositions (vars c'))
    = Some (Vector2.mk (pageX e) (pageY e)) /\
    state (vars c') = state (vars c) /\
    events c' = events c /\
    this c' = this c.
Proof.
  intros P L T Ne. cbn [deliver]. unfold onPointerDown.
  rewrite P. cbn [List.length Nat.eqb]. cbv zeta.
  unfold isTrackingPointer. rewrite P. cbn [existsb].
  destruct (Z.eqb_spec (pointerId e) m) as [Q | _]; [contradiction | ].
  cbn [orb]. rewrite T. cbn [String.eqb Ascii.eqb Bool.eqb andb].
  unfold onTouchStart. cbv zeta.
  cbn [trackPointer addPointer with_vars vars set_pointerPositions
       set_pointers pointers].
  rewrite P. cbn [app List.length].
  cbn [TOUCHES.TWO TOUCH.DOLLY_PAN Z.eqb Pos.eqb].
  unfold handleTouchStartDollyPan, handleTouchStartDolly, touchDistance,
    getSecondPointerPosition. cbv zeta.
  cbn [trackPointer addPointer with_vars vars set_pointerPositions
       set_pointers pointers pointerPositions].
  rewrite P. cbn [app nth_error].
  destruct (Z.eqb_spec (pointerId e) m) as [Q | _]; [contradiction | ].
  rewrite storePosition_lookup_other by congruence. rewrite L.
  cbn [andThen]. eexists. split; [reflexivity | ].
  unfold trackPointer, addPointer.
  cbn [vars with_vars set_pointers set_pointerPositions pointers
       pointerPositions state events this].
  rewrite P. repeat split. apply storePosition_lookup_same.
Qed.

Lemma touch_after_mouse_throws_witness :
  exists c',
    deliver (pointerdown (touch_at 2 200 100)) pressed = Thrown c' /\
    pointers (vars c') = [1%Z; 2%Z] /\
    state (vars c') = state (vars pressed).
Proof.
  assert (P0 : pointers (vars (update demo)) = [])
    by (rewrite update_pointers; reflexivity).
  assert (Q0 : pointerPositions (vars (update demo)) = [])
    by (rewrite update_vars; reflexivity).
  assert (T0 : pointerType (mouse_at 100 100 0%Z false) <> "touch"%string)
    by discriminate.
  assert (E : pointers (vars pressed) = [1%Z]
              /\ pointerPositions (vars pressed) = []).
  { unfold pressed. cbn [deliver].
    rewrite (onPointerDown_first_mouse _ _ P0 T0). cbn [state_of].
    match goal with
    | |- context [onMouseDown ?e ?x] =>
        destruct (onMouseDown_effect e x)
          as (_ & _ & _ & H6 & H7 & _)
    end.
    rewrite H6, H7. unfold addPointer.
    cbn [vars with_vars set_listening domCall set_pointers pointers
         pointerPositions].
    rewrite P0, Q0. split; reflexivity. }
  destruct E as (P & Q).
  assert (L : lookupPosition 1 (pointerPositions (vars pressed)) = None)
    by (rewrite Q; reflexivity).
  assert (T : pointerType (touch_at 2 200 100) = "touch"%string)
    by reflexivity.
  assert (Ne : pointerId (touch_at 2 200 100) <> 1%Z) by discriminate.
  destruct (touch_after_mouse_throws (touch_at 2 200 100) 1%Z pressed P L T Ne)
    as (c' & D & R & _ & S & _).
  exists c'. repeat split; assumption.
Defined.

Lemma not_tracking (e : PointerEvent) (c : Controller) :
  ~ In (pointerId e) (pointers (vars c)) -> isTrackingPointer e c = false.
Proof.
  intros N. unfold isTrackingPointer.
  destruct (existsb _ _) eqn:E; [ | reflexivity].
  apply existsb_exists in E. destruct E as (p & I & Q).
  apply Z.eqb_eq in Q. subst p. contradiction.
Qed.

(** X13.  A third finger suspends the gesture.  When two pointers are
    registered, a further touch contact is registered and its position
    recorded, the state becomes NONE and nothing is dispatched; a touch
    move that follows records the position and changes neither the camera,
    the target, the spherical state, the pending deltas nor the
    notifications. *)
Theorem third_contact_suspends (e e' : PointerEvent) (c : Controller) :
  List.length (pointers (vars c)) = 2%nat ->
  ~ In (pointerId e) (pointers (vars c)) ->
  pointerType e = "touch"%string ->
  pointerType e' = "touch"%string ->
  exists c' c'',
    deliver (pointerdown e) c = Returned c' /\
    pointers (vars c') = pointers (vars c) ++ [pointerId e] /\
    state (vars c') = STATE.NONE /\
    observable c' = observable c /\
    same_pending c c' /\
    onPointerMove e' c' = Returned c'' /\
    lookupPosition (pointerId e') (pointerPositions (vars c''))
    = Some (Vector2.mk (pageX e') (pageY e')) /\
    state (vars c'') = STATE.NONE /\
    observable c'' = observable c' /\
    same_pending c' c''.
Proof.
  intros L N T T'. cbn [deliver]. unfold onPointerDown.
  rewrite L. cbn [Nat.eqb]. cbv zeta. rewrite (not_tracking e c N).
  rewrite T. cbn [String.eqb Ascii.eqb Bool.eqb andb].
  unfold onTouchStart. cbv zeta.
  assert (L3 : List.length
                 (pointers (vars (trackPointer e (addPointer e c)))) = 3%nat).
  { unfold trackPointer, addPointer.
    cbn [vars with_vars set_pointers set_pointerPositions pointers].
    rewrite length_app, L. reflexivity. }
  rewrite L3. cbn [andThen lift]. unfold startIfActive.
  cbn [set_state_of with_vars vars set_state state STATE.is_NONE].
  do 2 eexists. split; [reflexivity | ].
  unfold onPointerMove. rewrite T'.
  cbn [String.eqb Ascii.eqb Bool.eqb andb].
  unfold onTouchMove. cbv zeta.
  cbn [trackPointer addPointer with_vars vars set_state state
       set_pointerPositions set_pointers].
  unfold observable, same_pending.
  cbn [this vars events spherical sphericalDelta panOffset scale pointers
       pointerPositions state set_state_of with_vars set_state
       set_pointerPositions set_pointers].
  repeat split. apply storePosition_lookup_same.
Qed.

Lemma third_contact_suspends_witness :
  exists c' c'',
    deliver (pointerdown (touch_at 3 300 300)) pinching = Returned c' /\
    state (vars c') = STATE.NONE /\
    onPointerMove spread c' = Returned c'' /\
    observable c'' = observable c'.
Proof.
  assert (P : pointers (vars pinching) = [1%Z; 2%Z])
    by (rewrite pinching_vars; reflexivity).
  assert (L : List.length (pointers (vars pinching)) = 2%nat)
    by (rewrite P; reflexivity).
  assert (N : ~ In (pointerId (touch_at 3 300 300)) (pointers (vars pinching)))
    by (rewrite P; simpl; intuition discriminate).
  destruct (third_contact_suspends (touch_at 3 300 300) spread pinching L N
              eq_refl eq_refl)
    as (c' & c'' & D & _ & S & _ & _ & M & _ & _ & O & _).
  exists c', c''. repeat split; assumption.
Defined.

(** X14.  The registry never holds a pointer twice: along every run from
    the constructor, whatever the inputs and whether or not handlers
    throw, the pointer ids in [pointers] are pairwise different. *)
Theorem registry_never_repeats
  (cam : Camera) (el : Element) (inputs : list Input) :
  NoDup (pointers (vars (run inputs (new_OrbitControls cam el)))).
Proof.
  apply run_NoDup. unfold new_OrbitControls. rewrite update_pointers.
  simpl. constructor.
Qed.

Lemma accumulateKeyDown_arrow (e : KeyboardEvent) (c : Controller) :
  (arrow_key (code e) = false -> accumulateKeyDown e c = None) /\
  (arrow_key (code e) = true ->
   exists c1, accumulateKeyDown e c = Some c1 /\
              events c1 = events c /\ dom c1 = dom c /\
              same_registry c c1).
Proof.
  unfold arrow_key, accumulateKeyDown. cbv zeta.
  repeat (destruct (String.eqb (code e) _)); cbn [orb];
    split; intros H; try discriminate; try reflexivity;
    (eexists; split; [reflexivity | ]);
    destruct (key_shiftKey e); repeat split.
Qed.



(** ** Mouse drags *)

Lemma mouse_press_vars (b : Z) :
  let e := mouse_at 100 100 b false in
  onPointerDown e (update demo)
  = Returned
      (onMouseDown e
         (addPointer e
            (set_listening true
               (domCall (setPointerCapture (pointerId e)) (update demo))))).
Proof.
  cbv zeta. apply onPointerDown_first_mouse.
  - rewrite update_pointers. reflexivity.
  - discriminate.
Qed.

(** X16.  A pan drag.  In state PAN with no pan pending and the default
    target limits, a mouse move to (x, y) moves the target along the first
    two columns of the camera matrix, by the pointer displacement since
    [panStart] times 2 * panSpeed * d * tan(fov / 2) / clientHeight, where
    d is the distance of the camera from the target: against the first
    column for a displacement to the right, and along the second column
    for a displacement down the page.  The y coordinate is kept at or
    above [MIN_TARGET_HEIGHT], and the drag continues from (x, y). *)
Theorem mouse_pan_drag (e : PointerEvent) (c : Controller) :
  state (vars c) = STATE.PAN ->
  panOffset (vars c) = Vector3.mk 0 0 0 ->
  minTargetRadius (this c) = 0 ->
  maxTargetRadius (this c) = Infinity ->
  let o := this c in
  let k :=
    2 * panSpeed o
    * (Vector3.length (Vector3.sub (position (camera o)) (target o))
       * tan ((fov (camera o) / 2) * PI / 180.0))
    / clientHeight (domElement o) in
  let dx := clientX e - Vector2.x (panStart (vars c)) in
  let dy := clientY e - Vector2.y (panStart (vars c)) in
  let r := Vector3.setFromMatrixColumn (matrix (camera o)) 0 in
  let u := Vector3.setFromMatrixColumn (matrix (camera o)) 1 in
  target (this (onMouseMove e c))
  = Vector3.mk
      (Vector3.x (target o) + k * (dy * Vector3.x u - dx * Vector3.x r))
      (Rmax (Vector3.y (target o) + k * (dy * Vector3.y u - dx * Vector3.y r))
         MIN_TARGET_HEIGHT)
      (Vector3.z (target o) + k * (dy * Vector3.z u - dx * Vector3.z r)) /\
  panStart (vars (onMouseMove e c)) = Vector2.mk (clientX e) (clientY e).
Proof.
  intros Hs Hp Hmin Hmax. cbv zeta.
  unfold onMouseMove. rewrite Hs. unfold handleMouseMovePan.
  split.
  - rewrite update_target.
    rewrite moveTarget_default by exact Hmin || exact Hmax.
    unfold accumulateMouseMovePan, pan, panLeft, panUp. cbv zeta.
    cbn [this vars with_vars set_panEnd set_panDelta set_panOffset
         set_panStart panEnd panStart panDelta panOffset
         Vector2.multiplyScalar Vector2.subVectors Vector2.x Vector2.y].
    rewrite Hp.
    generalize (Vector3.setFromMatrixColumn (matrix (camera (this c))) 0).
    generalize (Vector3.setFromMatrixColumn (matrix (camera (this c))) 1).
    intros [ux uy uz] [rx ry rz].
    unfold Vector3.add, Vector3.multiplyScalar.
    cbn [Vector3.x Vector3.y Vector3.z]. unfold Rdiv.
    f_equal; [ | f_equal | ]; ring.
  - rewrite update_vars. reflexivity.
Qed.

Lemma onMouseDown_state (e : PointerEvent) (c : Controller) :
  shiftKey e = false ->
  (button e = 1%Z -> state (vars (onMouseDown e c)) = STATE.DOLLY) /\
  (button e = 2%Z -> state (vars (onMouseDown e c)) = STATE.PAN).
Proof.
  intros Hk. unfold onMouseDown. cbv zeta. rewrite Hk.
  split; intros Hb; rewrite Hb; reflexivity.
Qed.

Lemma mouse_pan_drag_witness :
  state (vars pan_pressed) = STATE.PAN /\
  panOffset (vars pan_pressed) = Vector3.mk 0 0 0 /\
  panStart (vars (onMouseMove (mouse_at 150 100 2%Z false) pan_pressed))
  = Vector2.mk 150 100.
Proof.
  assert (F : state (vars pan_pressed) = STATE.PAN
              /\ panOffset (vars pan_pressed) = Vector3.mk 0 0 0
              /\ minTargetRadius (this pan_pressed) = 0
              /\ maxTargetRadius (this pan_pressed) = Infinity).
  { unfold pan_pressed. cbn [deliver].
    rewrite (mouse_press_vars 2). cbn [state_of].
    match goal with
    | |- context [onMouseDown ?e ?x] =>
        destruct (onMouseDown_effect e x) as (H1 & _ & (_ & H4 & _) & _);
        destruct (onMouseDown_state e x eq_refl) as (_ & S)
    end.
    rewrite (S eq_refl), H4, H1.
    cbn [this vars addPointer with_vars set_listening domCall set_pointers
         panOffset].
    rewrite update_panOffset, update_this.
    repeat split. }
  destruct F as (A & B & C & D).
  split; [exact A | ]. split; [exact B | ].
  exact (proj2 (mouse_pan_drag (mouse_at 150 100 2%Z false) pan_pressed
                  A B C D)).
Defined.

(** X17.  A dolly drag zooms as the wheel does.  In state DOLLY a mouse
    move that is dy pixels below [dollyStart] leaves the camera at the
    distance at which [handleMouseWheel] called with delta dy would
    leave it. *)
Theorem mouse_dolly_as_wheel (e : PointerEvent) (c : Controller) :
  state (vars c) = STATE.DOLLY ->
  getDistance (onMouseMove e c)
  = getDistance
      (handleMouseWheel (clientY e - Vector2.y (dollyStart (vars c))) c).
Proof.
  intros Hs. unfold onMouseMove. rewrite Hs.
  unfold handleMouseMoveDolly, handleMouseWheel.
  rewrite !getDistance_scaled.
  unfold accumulateMouseMoveDolly, accumulateMouseWheel. cbv zeta.
  cbn [vars with_vars set_dollyEnd set_dollyDelta dollyEnd dollyStart
       dollyDelta Vector2.subVectors Vector2.x Vector2.y this].
  set (dy := clientY e - Vector2.y (dollyStart (vars c))).
  destruct (Rlt_dec 0 dy), (Rlt_dec dy 0); try lra; reflexivity.
Qed.

Lemma mouse_dolly_as_wheel_witness :
  state (vars dolly_pressed) = STATE.DOLLY /\
  getDistance (onMouseMove (mouse_at 100 150 1%Z false) dolly_pressed)
  = getDistance
      (handleMouseWheel (150 - Vector2.y (dollyStart (vars dolly_pressed)))
         dolly_pressed).
Proof.
  assert (A : state (vars dolly_pressed) = STATE.DOLLY).
  { unfold dolly_pressed. cbn [deliver].
    rewrite (mouse_press_vars 1). cbn [state_of].
    match goal with
    | |- context [onMouseDown ?e ?x] =>
        destruct (onMouseDown_state e x eq_refl) as (S & _)
    end.
    exact (S eq_refl). }
  split; [exact A | ].
  exact (mouse_dolly_as_wheel (mouse_at 100 150 1%Z false) dolly_pressed A).
Defined.
